(** * The Rome world: first-person control loop of [src/rome.js]

    A shallow embedding of the control logic that [init] wires together
    in [src/rome.js]: the keyboard handlers, the ground probe
    ([isPlayerGrounded]), the debug view toggle ([toggleDebugMode]), the
    movement integrator ([updateMovement]), the wall-slide adjuster
    ([adjustVelocityForWalls]) and the animation callback ([animate]) with
    its fixed-step physics accumulator and camera synchronisation.

    Modelling choices.

    - JavaScript numbers are modelled as real numbers ([R]): the code
      takes square roots ([Vector3.length], [Vector3.normalize]), so no
      smaller exact number type is closed under its operations.  Rounding of
      IEEE doubles is outside the model; every statement below is about
      the exact-arithmetic reading of the source.
    - The closure variables of [init] ([keyState], [debugMode],
      [splatsLoaded], [environment], [previousTime],
      [physicsAccumulator], ...) are the fields of one [State] record and
      every handler is a function [State -> State].
    - The physics engine (Rapier) and the scene graph (three.js) are
      external.  Of three.js we model the [Vector3] methods the source calls
      and [Object3D.add]/[remove] on the scene's child list.  Of Rapier, the
      player body is a record holding what the source reads and writes (its
      translation, its linear velocity, and the sleeping flag that
      [setLinvel(_, true)] clears), and the world counts the calls of
      [world.step].  The engine operations whose results the source cannot
      predict, [world.castRayAndGetNormal], the per-tick integration done by
      [world.step] and [camera.getWorldDirection], are parameters of the
      model, so that every theorem holds for every engine behaviour.
    - DOM styling ([infoElement], [loadingElement], the reticle, the mute
      button) and console output are not part of the model. *)

From Stdlib Require Import Reals Lra Lia ZArith List.
From stdpp Require Import gmap strings.
Local Open Scope R_scope.

(** ** three.js [Vector3] *)

Module Vector3.

Record t : Type := new { x : R; y : R; z : R }.

Definition set_y (v : t) (b : R) : t := new (x v) b (z v).

Definition clone (v : t) : t := v.

Definition lengthSq (v : t) : R := x v * x v + y v * y v + z v * z v.

Definition length (v : t) : R := sqrt (x v * x v + y v * y v + z v * z v).

Definition multiplyScalar (v : t) (s : R) : t :=
  new (x v * s) (y v * s) (z v * s).

Definition divideScalar (v : t) (s : R) : t := multiplyScalar v (1 / s).

(** [normalize() { return this.divideScalar( this.length() || 1 ); }] *)
Definition normalize (v : t) : t :=
  divideScalar v (if Req_dec_T (length v) 0 then 1 else length v).

Definition dot (a b : t) : R := x a * x b + y a * y b + z a * z b.

Definition add (a b : t) : t := new (x a + x b) (y a + y b) (z a + z b).

Definition sub (a b : t) : t := new (x a - x b) (y a - y b) (z a - z b).

Definition addScaledVector (a b : t) (s : R) : t :=
  new (x a + x b * s) (y a + y b * s) (z a + z b * s).

Definition crossVectors (a b : t) : t :=
  new (y a * z b - z a * y b) (z a * x b - x a * z b) (x a * y b - y a * x b).


End Vector3.

(** ** Configuration constants of [rome.js] *)

Definition GLOBAL_SCALE : R := 0.7.
Definition MOVE_SPEED : R := 3 * GLOBAL_SCALE.
Definition PLAYER_RADIUS : R := 0.1 * GLOBAL_SCALE.
Definition PLAYER_HALF_HEIGHT : R := 0.5 * GLOBAL_SCALE.
Definition PLAYER_EYE_HEIGHT : R := 1.0 * GLOBAL_SCALE.
Definition PLAYER_JUMP_SPEED : R := 8.0 * GLOBAL_SCALE.

Definition FIXED_TIME_STEP : R := 1 / 60.
Definition MAX_SUBSTEPS : Z := 5.

(** ** Rapier: rays, hits, the player body and the world *)

Record Ray : Type := { origin : Vector3.t; dir : Vector3.t }.

(** The result of [castRayAndGetNormal]: the source reads [hit.toi] and
    [hit.normal], and tests [hit.normal] for presence. *)
Record RayHit : Type := { toi : R; normal : option Vector3.t }.

Record RigidBody : Type := {
  translation : Vector3.t;
  linvel : Vector3.t;
  sleeping : bool
}.

(** [body.setLinvel(vel, wakeUp)] *)
Definition setLinvel (vel : Vector3.t) (wakeUp : bool) (b : RigidBody)
  : RigidBody :=
  {| translation := translation b;
     linvel := vel;
     sleeping := if wakeUp then false else sleeping b |}.

(** The world owns the player body ([playerBody] is [null] until the body
    is created) and counts the ticks it has been advanced by. *)
Record World : Type := {
  playerBody : option RigidBody;
  ticks : nat
}.

(** ** Scene graph and camera *)

Inductive Object3D : Type :=
| hemiLight | dirLight | pointLight | splatMesh | environmentMesh.

#[global] Instance Object3D_eq_dec : EqDecision Object3D.
Proof. solve_decision. Defined.

(** The wireframe mesh bound to the variable [environment]. *)
Record Mesh : Type := { visible : bool }.

(** [Object3D.remove]: [indexOf] the child and splice it out. *)
Fixpoint Object3D_remove (o : Object3D) (cs : list Object3D)
  : list Object3D :=
  match cs with
  | [] => []
  | c :: cs' => if decide (c = o) then cs' else c :: Object3D_remove o cs'
  end.

(** [Object3D.add]: detach the object from its parent, then push it. *)
Definition Object3D_add (o : Object3D) (cs : list Object3D)
  : list Object3D :=
  Object3D_remove o cs ++ [o].

Arguments Object3D_add : simpl never.

Record Quaternion : Type := { qx : R; qy : R; qz : R; qw : R }.

Record Camera : Type := {
  position : Vector3.t;
  quaternion : Quaternion
}.

(** [camera.up], never reassigned by the source. *)
Definition Camera_up : Vector3.t := Vector3.new 0 1 0.

(** ** Application state: the variables closed over by [init] *)

Record State : Type := {
  world : World;
  camera : Camera;
  isLocked : bool;
  children : list Object3D;
  environment : option Mesh;
  splatsLoaded : bool;
  keyState : gmap string bool;
  debugMode : bool;
  previousTime : R;
  physicsAccumulator : R
}.

Definition set_world (f : World -> World) (s : State) : State :=
  {| world := f (world s); camera := camera s; isLocked := isLocked s;
     children := children s; environment := environment s;
     splatsLoaded := splatsLoaded s; keyState := keyState s;
     debugMode := debugMode s; previousTime := previousTime s;
     physicsAccumulator := physicsAccumulator s |}.

Definition set_camera (f : Camera -> Camera) (s : State) : State :=
  {| world := world s; camera := f (camera s); isLocked := isLocked s;
     children := children s; environment := environment s;
     splatsLoaded := splatsLoaded s; keyState := keyState s;
     debugMode := debugMode s; previousTime := previousTime s;
     physicsAccumulator := physicsAccumulator s |}.

Definition set_isLocked (b : bool) (s : State) : State :=
  {| world := world s; camera := camera s; isLocked := b;
     children := children s; environment := environment s;
     splatsLoaded := splatsLoaded s; keyState := keyState s;
     debugMode := debugMode s; previousTime := previousTime s;
     physicsAccumulator := physicsAccumulator s |}.

Definition set_children (f : list Object3D -> list Object3D) (s : State)
  : State :=
  {| world := world s; camera := camera s; isLocked := isLocked s;
     children := f (children s); environment := environment s;
     splatsLoaded := splatsLoaded s; keyState := keyState s;
     debugMode := debugMode s; previousTime := previousTime s;
     physicsAccumulator := physicsAccumulator s |}.

Definition set_environment (e : option Mesh) (s : State) : State :=
  {| world := world s; camera := camera s; isLocked := isLocked s;
     children := children s; environment := e;
     splatsLoaded := splatsLoaded s; keyState := keyState s;
     debugMode := debugMode s; previousTime := previousTime s;
     physicsAccumulator := physicsAccumulator s |}.

Definition set_splatsLoaded (b : bool) (s : State) : State :=
  {| world := world s; camera := camera s; isLocked := isLocked s;
     children := children s; environment := environment s;
     splatsLoaded := b; keyState := keyState s;
     debugMode := debugMode s; previousTime := previousTime s;
     physicsAccumulator := physicsAccumulator s |}.

Definition set_keyState (f : gmap string bool -> gmap string bool)
  (s : State) : State :=
  {| world := world s; camera := camera s; isLocked := isLocked s;
     children := children s; environment := environment s;
     splatsLoaded := splatsLoaded s; keyState := f (keyState s);
     debugMode := debugMode s; previousTime := previousTime s;
     physicsAccumulator := physicsAccumulator s |}.

Definition set_debugMode (b : bool) (s : State) : State :=
  {| world := world s; camera := camera s; isLocked := isLocked s;
     children := children s; environment := environment s;
     splatsLoaded := splatsLoaded s; keyState := keyState s;
     debugMode := b; previousTime := previousTime s;
     physicsAccumulator := physicsAccumulator s |}.

Definition set_previousTime (t : R) (s : State) : State :=
  {| world := world s; camera := camera s; isLocked := isLocked s;
     children := children s; environment := environment s;
     splatsLoaded := splatsLoaded s; keyState := keyState s;
     debugMode := debugMode s; previousTime := t;
     physicsAccumulator := physicsAccumulator s |}.

Definition set_physicsAccumulator (a : R) (s : State) : State :=
  {| world := world s; camera := camera s; isLocked := isLocked s;
     children := children s; environment := environment s;
     splatsLoaded := splatsLoaded s; keyState := keyState s;
     debugMode := debugMode s; previousTime := previousTime s;
     physicsAccumulator := a |}.

(** [playerBody.setLinvel(vel, wakeUp)] through the handle held by [init]. *)
Definition setPlayerLinvel (vel : Vector3.t) (wakeUp : bool) (w : World)
  : World :=
  {| playerBody := option_map (setLinvel vel wakeUp) (playerBody w);
     ticks := ticks w |}.

(** Truthiness of [keyState[code]]: a key never seen is [undefined]. *)
Definition pressed (ks : gmap string bool) (code : string) : bool :=
  default false (ks !! code).

(** ** Comparisons of JavaScript numbers, as booleans *)

Definition Rleb (a b : R) : bool := if Rle_dec a b then true else false.
Definition Rltb (a b : R) : bool := if Rlt_dec a b then true else false.
Definition Reqb (a b : R) : bool := if Req_dec_T a b then true else false.

(** ** [config.js] and the image table: asset locations *)

Module Config.

Definition DEFAULT_BUCKET_URL : string :=
  "https://pub-c101b1fa435b44a9a86cef9c78085b4f.r2.dev/public".

(** [import.meta.env.VITE_R2_BUCKET_URL || '...']: the variable may be
    unset ([None]) or set to a string; the empty string is falsy. *)
Definition R2_BUCKET_URL (VITE_R2_BUCKET_URL : option string) : string :=
  match VITE_R2_BUCKET_URL with
  | Some url => if String.eqb url "" then DEFAULT_BUCKET_URL else url
  | None => DEFAULT_BUCKET_URL
  end.

(** The template literal [`${R2_BUCKET_URL}/${filename}`]. *)
Definition getAssetUrl (env : option string) (filename : string) : string :=
  String.append (R2_BUCKET_URL env) (String.append "/" filename).

Definition getImageUrl (env : option string) (filename : string) : string :=
  String.append (R2_BUCKET_URL env) (String.append "/" filename).

Record Models : Type := {
  ANCIENT : string;
  COOPER_STATION : string;
  DIS1 : string;
  MOUNTAIN : string;
  ROME : string;
  TEMPLE : string
}.

Record Images : Type := {
  ANCIENT_PREVIEW : string;
  COOPER_STATION_PREVIEW : string;
  UNDERGROUND_PREVIEW : string;
  VALLEY_PREVIEW : string;
  ROME_PREVIEW : string;
  TEMPLE_PREVIEW : string
}.

(** [ASSETS.MODELS] *)
Definition MODELS : Models :=
  {| ANCIENT := "ancient.spz";
     COOPER_STATION := "cooper_station.spz";
     DIS1 := "dis1.spz";
     MOUNTAIN := "mountain.spz";
     ROME := "rome.spz";
     TEMPLE := "temple.spz" |}.

(** [ASSETS.IMAGES] *)
Definition IMAGES : Images :=
  {| ANCIENT_PREVIEW := "ancient_preview.webp";
     COOPER_STATION_PREVIEW := "cooper_station_preview.webp";
     UNDERGROUND_PREVIEW := "underground.webp";
     VALLEY_PREVIEW := "valley_preview.webp";
     ROME_PREVIEW := "rome_preview.webp";
     TEMPLE_PREVIEW := "temple_preview.webp" |}.

(** [IMAGE_URLS] of the image table: a preview URL for each key. *)
Definition IMAGE_URLS (env : option string) : Images :=
  {| ANCIENT_PREVIEW := getImageUrl env (ANCIENT_PREVIEW IMAGES);
     COOPER_STATION_PREVIEW :=
       getImageUrl env (COOPER_STATION_PREVIEW IMAGES);
     UNDERGROUND_PREVIEW := getImageUrl env (UNDERGROUND_PREVIEW IMAGES);
     VALLEY_PREVIEW := getImageUrl env (VALLEY_PREVIEW IMAGES);
     ROME_PREVIEW := getImageUrl env (ROME_PREVIEW IMAGES);
     TEMPLE_PREVIEW := getImageUrl env (TEMPLE_PREVIEW IMAGES) |}.

(** [CONFIG.ENVIRONMENT.SPLATS] of [rome.js]. *)
Definition SPLATS (env : option string) : string :=
  getAssetUrl env (ROME MODELS).

(** Every URL the two tables give rise to: the six models, then the six
    previews. *)
Definition allUrls (env : option string) : list string :=
  [ getAssetUrl env (ANCIENT MODELS);
    getAssetUrl env (COOPER_STATION MODELS);
    getAssetUrl env (DIS1 MODELS);
    getAssetUrl env (MOUNTAIN MODELS);
    getAssetUrl env (ROME MODELS);
    getAssetUrl env (TEMPLE MODELS);
    ANCIENT_PREVIEW (IMAGE_URLS env);
    COOPER_STATION_PREVIEW (IMAGE_URLS env);
    UNDERGROUND_PREVIEW (IMAGE_URLS env);
    VALLEY_PREVIEW (IMAGE_URLS env);
    ROME_PREVIEW (IMAGE_URLS env);
    TEMPLE_PREVIEW (IMAGE_URLS env) ].

End Config.

(** ** The mute flag and the volume button *)

Module Volume.

(** What the volume button shows: the icon [setMuted] writes for a muted
    page (the first string literal of its conditional), the icon it
    writes otherwise, or whatever the page came with. *)
Inductive ButtonText : Type := iconMuted | iconSound | pageText.

(** [window.__MUTED__] and the text of the element with the id
    [volumeToggle]; [None] when the page has no such element. *)
Record Page : Type := {
  MUTED : bool;
  volumeToggle : option ButtonText
}.

(** [setMuted(m)]; every call site passes a boolean. *)
Definition setMuted (m : bool) (p : Page) : Page :=
  {| MUTED := m;
     volumeToggle :=
       match volumeToggle p with
       | Some _ => Some (if m then iconMuted else iconSound)
       | None => None
       end |}.

(** The click listener of the volume button. *)
Definition click (p : Page) : Page := setMuted (negb (MUTED p)) p.

(** The wiring in [init]: with a button, show the current state. *)
Definition wire (p : Page) : Page :=
  match volumeToggle p with
  | Some _ => setMuted (MUTED p) p
  | None => p
  end.

Fixpoint clicks (n : nat) (p : Page) : Page :=
  match n with
  | O => p
  | S n' => clicks n' (click p)
  end.

End Volume.

(** ** [setupMaterialsForLighting]: materials of an object tree

    Materials are objects that several meshes may share, and the function
    changes them in place: they live in a store and meshes hold
    references.  Colours are modelled as values (no two materials share
    one [Color] object).  [new THREE.MeshStandardMaterial(parameters)] is
    modelled by the defaults of three.js (black emissive colour, emissive
    intensity 1, opaque, white when no colour is given) with the given
    parameters copied in. *)

Module Materials.

Record Color : Type := { red : R; green : R; blue : R }.

Definition black : Color := {| red := 0; green := 0; blue := 0 |}.
Definition white : Color := {| red := 1; green := 1; blue := 1 |}.

(** [color.clone().multiplyScalar(k)] *)
Definition scale (c : Color) (k : R) : Color :=
  {| red := red c * k; green := green c * k; blue := blue c * k |}.

(** The properties of a material that the function reads or writes;
    [None] stands for a property that is [undefined] (or [null], for the
    texture maps, which are opaque handles). *)
Record Material : Type := {
  type : string;
  emissive : option Color;
  emissiveIntensity : option R;
  color : option Color;
  map : option nat;
  normalMap : option nat;
  roughness : option R;
  metalness : option R;
  transparent : bool;
  opacity : R
}.

Definition set_emissive (v : option Color) (m : Material) : Material :=
  {| type := type m; emissive := v;
     emissiveIntensity := emissiveIntensity m; color := color m;
     map := map m; normalMap := normalMap m; roughness := roughness m;
     metalness := metalness m; transparent := transparent m;
     opacity := opacity m |}.

Definition set_emissiveIntensity (v : option R) (m : Material) : Material :=
  {| type := type m; emissive := emissive m;
     emissiveIntensity := v; color := color m;
     map := map m; normalMap := normalMap m; roughness := roughness m;
     metalness := metalness m; transparent := transparent m;
     opacity := opacity m |}.

Definition set_color (v : option Color) (m : Material) : Material :=
  {| type := type m; emissive := emissive m;
     emissiveIntensity := emissiveIntensity m; color := v;
     map := map m; normalMap := normalMap m; roughness := roughness m;
     metalness := metalness m; transparent := transparent m;
     opacity := opacity m |}.

Definition set_roughness (v : option R) (m : Material) : Material :=
  {| type := type m; emissive := emissive m;
     emissiveIntensity := emissiveIntensity m; color := color m;
     map := map m; normalMap := normalMap m; roughness := v;
     metalness := metalness m; transparent := transparent m;
     opacity := opacity m |}.

Definition set_metalness (v : option R) (m : Material) : Material :=
  {| type := type m; emissive := emissive m;
     emissiveIntensity := emissiveIntensity m; color := color m;
     map := map m; normalMap := normalMap m; roughness := roughness m;
     metalness := v; transparent := transparent m;
     opacity := opacity m |}.

Definition set_transparent (v : bool) (m : Material) : Material :=
  {| type := type m; emissive := emissive m;
     emissiveIntensity := emissiveIntensity m; color := color m;
     map := map m; normalMap := normalMap m; roughness := roughness m;
     metalness := metalness m; transparent := v;
     opacity := opacity m |}.

(** [new THREE.MeshStandardMaterial({ color, map, normalMap,
    roughness: 0.8, metalness: 0.1 })] *)
Definition MeshStandardMaterial
  (c : option Color) (mp nm : option nat) : Material :=
  {| type := "MeshStandardMaterial";
     emissive := Some black;
     emissiveIntensity := Some 1;
     color := Some (default white c);
     map := mp;
     normalMap := nm;
     roughness := Some 0.8;
     metalness := Some 0.1;
     transparent := false;
     opacity := 1 |}.

(** The store of material objects: [materials h i] is the object with
    the reference [i], and [next h] the first reference not yet in use. *)
Record Heap : Type := {
  materials : nat -> Material;
  next : nat
}.

Definition update (i : nat) (m : Material) (h : Heap) : Heap :=
  {| materials := fun j => if Nat.eqb j i then m else materials h j;
     next := next h |}.

Definition alloc (m : Material) (h : Heap) : nat * Heap :=
  (next h,
   {| materials := fun j => if Nat.eqb j (next h) then m else materials h j;
      next := S (next h) |}).

(** The body of the loop over the materials of one mesh: it returns the
    reference pushed on [newMaterials]. *)
Definition adjust (brightnessMultiplier : R) (i : nat) (h : Heap)
  : nat * Heap :=
  let material := materials h i in
  let material :=
    match emissive material with
    | Some _ => set_emissive (Some black) material
    | None => material
    end in
  let material :=
    match emissiveIntensity material with
    | Some _ => set_emissiveIntensity (Some 0) material
    | None => material
    end in
  if String.eqb (type material) "MeshBasicMaterial" then
    alloc
      (MeshStandardMaterial (color material) (map material)
         (normalMap material))
      (update i material h)
  else
    let material :=
      match roughness material with
      | Some _ => set_roughness (Some 0.8) material
      | None => material
      end in
    let material :=
      match metalness material with
      | Some _ => set_metalness (Some 0.1) material
      | None => material
      end in
    let material :=
      match color material with
      | Some c =>
          if Reqb brightnessMultiplier 1.0 then material
          else set_color (Some (scale c brightnessMultiplier)) material
      | None => material
      end in
    let material :=
      if transparent material && Reqb (opacity material) 1
      then set_transparent false material
      else material in
    (i, update i material h).

(** A loop that threads the store through a list, left to right. *)
Definition thread {A : Type} (f : A -> Heap -> A * Heap)
  : list A -> Heap -> list A * Heap :=
  fix go (l : list A) (h : Heap) : list A * Heap :=
    match l with
    | [] => ([], h)
    | a :: l' =>
        let '(a', h1) := f a h in
        let '(l'', h2) := go l' h1 in
        (a' :: l'', h2)
    end.

Local Unset Elimination Schemes.

(** [child.material]: one material or an array of materials. *)
Inductive Slot : Type :=
| single (i : nat)
| array (l : list nat).

(** An object of the scene graph: [isMesh], [material] ([None] when
    absent) and [children]. *)
Inductive Object : Type :=
| object (isMesh : bool) (material : option Slot) (children : list Object).

(** The callback given to [traverse], on one object. *)
Definition visit (brightnessMultiplier : R) (isMesh : bool)
  (material : option Slot) (h : Heap) : option Slot * Heap :=
  if isMesh then
    match material with
    | Some (single i) =>
        let '(i', h') := adjust brightnessMultiplier i h in
        (Some (single i'), h')
    | Some (array l) =>
        let '(l', h') := thread (adjust brightnessMultiplier) l h in
        (Some (array l'), h')
    | None => (None, h)
    end
  else (material, h).

(** [object.traverse(callback)]: the object first, then its children in
    order. *)
Fixpoint setupMaterialsForLighting (brightnessMultiplier : R) (o : Object)
  (h : Heap) : Object * Heap :=
  match o with
  | object isMesh material children =>
      let '(material', h1) := visit brightnessMultiplier isMesh material h in
      let '(children', h2) :=
        thread (setupMaterialsForLighting brightnessMultiplier) children h1 in
      (object isMesh material' children', h2)
  end.

(** The references held by a slot. *)
Definition slotRefs (sl : option Slot) : list nat :=
  match sl with
  | Some (single i) => [i]
  | Some (array l) => l
  | None => []
  end.

(** The material references of the meshes of a tree, in the order of
    the traversal, with repetitions. *)
Fixpoint meshRefs (o : Object) : list nat :=
  match o with
  | object isMesh material children =>
      (if isMesh then slotRefs material else [])
      ++ flat_map meshRefs children
  end.

(** How many times the meshes of a tree refer to the material [i]. *)
Definition uses (i : nat) (o : Object) : nat :=
  length (filter (fun j => j = i) (meshRefs o)).

(** A tree without its references: which objects are meshes, where
    materials sit, and how many each array holds. *)
Inductive Shape : Type :=
| shape (isMesh : bool) (slot : option (option nat)) (children : list Shape).

Local Set Elimination Schemes.

Definition slotShape (sl : Slot) : option nat :=
  match sl with
  | single _ => None
  | array l => Some (length l)
  end.

Fixpoint shapeOf (o : Object) : Shape :=
  match o with
  | object isMesh material children =>
      shape isMesh (option_map slotShape material) (List.map shapeOf children)
  end.

(** A material fit for lighting: not a basic material, no emission
    colour, the fixed roughness and metalness where it has them, and not
    flagged transparent while fully opaque. *)
Definition lit (m : Material) : Prop :=
  type m <> "MeshBasicMaterial"
  /\ (forall c, emissive m = Some c -> c = black)
  /\ (forall x, roughness m = Some x -> x = 0.8)
  /\ (forall x, metalness m = Some x -> x = 0.1)
  /\ (transparent m = true -> opacity m <> 1).

(** A step [f] on [a], from a store that holds all references of [a]:
    the store only grows, materials fit for lighting stay so, and the
    references of the result are in the store and fit for lighting. *)
Definition lights {A : Type} (refs : A -> list nat)
  (f : A -> Heap -> A * Heap) (a : A) : Prop :=
  forall h : Heap,
    Forall (fun i => (i < next h)%nat) (refs a) ->
    (next h <= next (snd (f a h)))%nat
    /\ (forall j, (j < next h)%nat ->
        lit (materials h j) -> lit (materials (snd (f a h)) j))
    /\ Forall
         (fun i => (i < next (snd (f a h)))%nat
                   /\ lit (materials (snd (f a h)) i))
         (refs (fst (f a h))).

(** How many times [i] occurs in a list of references. *)
Definition count (i : nat) (l : list nat) : nat :=
  length (filter (fun j => j = i) l).

(** A step [f] on [a] multiplies the colour of every material that is
    in the store and is not a basic material by the brightness multiplier
    once per reference that [a] holds to it. *)
Definition brightens {A : Type} (k : R) (refs : A -> list nat)
  (f : A -> Heap -> A * Heap) (a : A) : Prop :=
  forall (h : Heap) (i : nat) (c : Color),
    (i < next h)%nat ->
    type (materials h i) <> "MeshBasicMaterial" ->
    color (materials h i) = Some c ->
    (next h <= next (snd (f a h)))%nat
    /\ type (materials (snd (f a h)) i) <> "MeshBasicMaterial"
    /\ color (materials (snd (f a h)) i)
       = Some (scale c (k ^ count i (refs a))).

End Materials.

(** ** Sample engines

    Concrete engine behaviours, used to run the model on explicit inputs:
    open air around a body at rest; a flat floor right under the feet; a
    hit that carries no normal. *)

Definition openAir : World -> Ray -> R -> bool -> option RayHit :=
  fun _ _ _ _ => None.

Definition flatFloor : World -> Ray -> R -> bool -> option RayHit :=
  fun _ _ _ _ =>
    Some {| toi := PLAYER_HALF_HEIGHT + PLAYER_RADIUS;
            normal := Some (Vector3.new 0 1 0) |}.

Definition bareHit : World -> Ray -> R -> bool -> option RayHit :=
  fun _ _ _ _ =>
    Some {| toi := PLAYER_HALF_HEIGHT + PLAYER_RADIUS; normal := None |}.

Definition atRest : RigidBody -> RigidBody := fun b => b.

Definition lookingAhead : Quaternion -> Vector3.t :=
  fun _ => Vector3.new 0 0 1.

(** Sample materials: a standard material that glows and is flagged
    transparent while opaque, and a basic material; a store of the two;
    and a tree of two meshes that share the first. *)

Definition glowing : Materials.Material :=
  {| Materials.type := "MeshStandardMaterial";
     Materials.emissive := Some Materials.white;
     Materials.emissiveIntensity := Some 1;
     Materials.color := Some Materials.white;
     Materials.map := None;
     Materials.normalMap := None;
     Materials.roughness := Some 0.5;
     Materials.metalness := Some 0.5;
     Materials.transparent := true;
     Materials.opacity := 1 |}.

Definition unlit : Materials.Material :=
  {| Materials.type := "MeshBasicMaterial";
     Materials.emissive := None;
     Materials.emissiveIntensity := None;
     Materials.color := Some Materials.white;
     Materials.map := Some 7%nat;
     Materials.normalMap := None;
     Materials.roughness := None;
     Materials.metalness := None;
     Materials.transparent := false;
     Materials.opacity := 1 |}.

Definition sampleStore : Materials.Heap :=
  {| Materials.materials := fun i => if Nat.eqb i 0 then glowing else unlit;
     Materials.next := 2 |}.

Definition sampleTree : Materials.Object :=
  Materials.object false None
    [ Materials.object true (Some (Materials.single 0%nat)) [];
      Materials.object true (Some (Materials.array [0%nat; 1%nat])) [] ].

(** Evaluates the capped step count once the floor is a numeral. *)
Ltac eval_steps :=
  unfold MAX_SUBSTEPS;
  repeat match goal with
  | |- context [Z.max ?a (Z.min ?b ?c)] =>
      let v := eval vm_compute in (Z.max a (Z.min b c)) in
      change (Z.max a (Z.min b c)) with v
  end.

(** ** The handlers of [init] *)

Section Engine.

(** [world.castRayAndGetNormal(ray, maxToi, solid)]: [None] is the
    engine's [null] (no hit). *)
Variable castRayAndGetNormal : World -> Ray -> R -> bool -> option RayHit.

(** What one engine tick does to the player body (gravity, damping,
    contacts). *)
Variable integrate : RigidBody -> RigidBody.

(** [camera.getWorldDirection], a function of the camera orientation. *)
Variable getWorldDirection : Quaternion -> Vector3.t.

(** [world.step()] *)
Definition World_step (w : World) : World :=
  {| playerBody := option_map integrate (playerBody w);
     ticks := S (ticks w) |}.

(** [hit.normal ? hit.normal.y : 1.0] *)
Definition hitNormalY (hit : RayHit) : R :=
  match normal hit with
  | Some n => Vector3.y n
  | None => 1.0
  end.

Definition isPlayerGrounded (s : State) : bool :=
  match playerBody (world s) with
  | None => false
  | Some body =>
      let p := translation body in
      let origin := Vector3.new (Vector3.x p) (Vector3.y p) (Vector3.z p) in
      let dir := Vector3.new 0 (-1) 0 in
      let ray := {| origin := origin; dir := dir |} in
      let footOffset := PLAYER_HALF_HEIGHT + PLAYER_RADIUS in
      match castRayAndGetNormal (world s) ray (footOffset + 0.6) true with
      | None => false
      | Some hit =>
          let normalY := hitNormalY hit in
          let nearGround :=
            Rleb (toi hit) (footOffset + 0.12) && Rltb 0.3 normalY in
          let vy := Vector3.y (linvel body) in
          nearGround && Rleb vy 0.6
      end
  end.

(** The guard [!splatMesh] never fires: [splatMesh] is bound to the
    [SplatMesh] object before any handler is installed. *)
Definition toggleDebugMode (s : State) : State :=
  if negb (splatsLoaded s) then s
  else if debugMode s then
    let s := set_children (Object3D_remove splatMesh) s in
    let s :=
      match environment s with
      | None =>
          set_children (Object3D_add environmentMesh)
            (set_environment (Some {| visible := true |}) s)
      | Some _ => s
      end in
    set_environment (Some {| visible := true |}) s
  else
    let s :=
      match environment s with
      | Some _ => set_environment (Some {| visible := false |}) s
      | None => s
      end in
    set_children (Object3D_add splatMesh) s.

(** The [onLoad] callback of the [SplatMesh]. *)
Definition onLoad (s : State) : State :=
  let s := set_splatsLoaded true s in
  let s :=
    match environment s with
    | Some _ => set_environment (Some {| visible := false |}) s
    | None => s
    end in
  set_children (Object3D_add splatMesh) s.

(** The [keydown] listener.  The [KeyP] branch only writes to the console. *)
Definition keydown (code : string) (s : State) : State :=
  let s := set_keyState (insert code true) s in
  let s :=
    if String.eqb code "KeyM"
    then toggleDebugMode (set_debugMode (negb (debugMode s)) s)
    else s in
  if String.eqb code "Space" then
    match playerBody (world s) with
    | Some body =>
        if isPlayerGrounded s then
          let v := linvel body in
          set_world
            (setPlayerLinvel
               (Vector3.new (Vector3.x v) PLAYER_JUMP_SPEED (Vector3.z v))
               true) s
        else s
    | None => s
    end
  else s.

(** The [keyup] listener. *)
Definition keyup (code : string) (s : State) : State :=
  set_keyState (insert code false) s.

Definition adjustVelocityForWalls (w : World) (body : RigidBody)
  (desiredVel : Vector3.t) : Vector3.t :=
  let v := Vector3.clone desiredVel in
  if Reqb (Vector3.lengthSq v) 0 then v
  else
    let p := translation body in
    let horiz := Vector3.new (Vector3.x v) 0 (Vector3.z v) in
    let len := Vector3.length horiz in
    if Reqb len 0 then v
    else
      let horiz := Vector3.normalize horiz in
      let origin := Vector3.new (Vector3.x p) (Vector3.y p) (Vector3.z p) in
      let dir := Vector3.new (Vector3.x horiz) 0 (Vector3.z horiz) in
      let ray := {| origin := origin; dir := dir |} in
      let lookahead := PLAYER_RADIUS + 0.1 in
      let hit := castRayAndGetNormal w ray lookahead true in
      match hit ≫= normal with
      | Some nrm =>
          let n :=
            Vector3.new (Vector3.x nrm) (Vector3.y nrm) (Vector3.z nrm) in
          let n := Vector3.set_y n 0 in
          if Rltb 0.0001 (Vector3.lengthSq n) then
            let n := Vector3.normalize n in
            let vn := Vector3.dot v n in
            if Rltb 0 vn then Vector3.addScaledVector v n (- vn) else v
          else v
      | None => v
      end.

Definition updateMovement (deltaTime : R) (s : State) : State :=
  match playerBody (world s) with
  | Some body =>
      if negb (isLocked s) then s
      else
        let forward := getWorldDirection (quaternion (camera s)) in
        let forward := Vector3.set_y forward 0 in
        let forward := Vector3.normalize forward in
        let right :=
          Vector3.normalize (Vector3.crossVectors forward Camera_up) in
        let moveDir := Vector3.new 0 0 0 in
        let moveDir :=
          if pressed (keyState s) "KeyW"
          then Vector3.add moveDir forward else moveDir in
        let moveDir :=
          if pressed (keyState s) "KeyS"
          then Vector3.sub moveDir forward else moveDir in
        let moveDir :=
          if pressed (keyState s) "KeyD"
          then Vector3.add moveDir right else moveDir in
        let moveDir :=
          if pressed (keyState s) "KeyA"
          then Vector3.sub moveDir right else moveDir in
        let target :=
          if Rltb 0 (Vector3.lengthSq moveDir) then
            let moveDir :=
              Vector3.multiplyScalar (Vector3.normalize moveDir) MOVE_SPEED in
            let desired := Vector3.clone moveDir in
            let adjusted := adjustVelocityForWalls (world s) body desired in
            (Vector3.x adjusted, Vector3.z adjusted)
          else (0, 0) in
        let current := linvel body in
        let targetY := Vector3.y current in
        let targetY :=
          if pressed (keyState s) "KeyR"
          then targetY + MOVE_SPEED else targetY in
        let targetY :=
          if pressed (keyState s) "KeyF"
          then targetY - MOVE_SPEED else targetY in
        set_world
          (setPlayerLinvel (Vector3.new (fst target) targetY (snd target))
             true) s
  | None => s
  end.

(** One iteration of the body of the physics loop of [animate]. *)
Definition physicsTick (s : State) : State :=
  let s := set_world World_step s in
  set_physicsAccumulator (physicsAccumulator s - FIXED_TIME_STEP) s.

(** [for (let i = 0; i < steps; i++) { ... }] for an integer-valued
    [steps]: the body runs [Z.to_nat steps] times, not at all when [steps]
    is zero or negative. *)
Fixpoint physicsLoop (n : nat) (s : State) : State :=
  match n with
  | O => s
  | S n' => physicsLoop n' (physicsTick s)
  end.

(** The camera synchronisation at the end of [animate]. *)
Definition syncCamera (s : State) : State :=
  match playerBody (world s) with
  | Some body =>
      let p := translation body in
      let feetY := Vector3.y p - (PLAYER_HALF_HEIGHT + PLAYER_RADIUS) in
      set_camera
        (fun c =>
           {| position :=
                Vector3.new (Vector3.x p) (feetY + PLAYER_EYE_HEIGHT)
                  (Vector3.z p);
              quaternion := quaternion c |}) s
  | None => s
  end.

(** [Math.min((currentTime - previousTime) / 1000, 0.1)] *)
Definition frameTimeOf (currentTime : R) (s : State) : R :=
  Rmin ((currentTime - previousTime s) / 1000) 0.1.

(** [Math.min(Math.floor(physicsAccumulator / FIXED_TIME_STEP),
    MAX_SUBSTEPS)] *)
Definition stepsOf (accumulator : R) : Z :=
  Z.min (Zfloor (accumulator / FIXED_TIME_STEP)) MAX_SUBSTEPS.

(** The animation callback.  Scheduling the next callback and drawing
    the frame do not touch the state. *)
Definition animate (currentTime : R) (s : State) : State :=
  let frameTime := frameTimeOf currentTime s in
  let s := set_previousTime currentTime s in
  let s := updateMovement frameTime s in
  let s := set_physicsAccumulator (physicsAccumulator s + frameTime) s in
  let steps := stepsOf (physicsAccumulator s) in
  let s := physicsLoop (Z.to_nat steps) s in
  syncCamera s.

(** ** Runs *)

(** What the browser can deliver to the handlers installed by [init]. *)
Inductive Event : Type :=
| KeyDown (code : string)
| KeyUp (code : string)
| SplatsLoaded
| PointerLock (locked : bool)
| Look (q : Quaternion)
| Frame (currentTime : R).

Definition handle (e : Event) (s : State) : State :=
  match e with
  | KeyDown code => keydown code s
  | KeyUp code => keyup code s
  | SplatsLoaded => onLoad s
  | PointerLock b => set_isLocked b s
  | Look q =>
      set_camera
        (fun c => {| position := position c; quaternion := q |}) s
  | Frame t => animate t s
  end.

Definition run (es : list Event) (s : State) : State :=
  fold_left (fun s e => handle e s) es s.

(** The state built by [init] before its first call of [animate], with
    [now] the value of [performance.now()]. *)
Definition setup (now : R) : State :=
  {| world :=
       {| playerBody :=
            Some {| translation := Vector3.new 0 1.2 0;
                    linvel := Vector3.new 0 0 0;
                    sleeping := false |};
          ticks := 0 |};
     camera :=
       {| position := Vector3.new 0 0 0;
          quaternion := {| qx := 0; qy := 1; qz := 0; qw := 0 |} |};
     isLocked := false;
     children := [hemiLight; dirLight; pointLight];
     environment := None;
     splatsLoaded := false;
     keyState := ∅;
     debugMode := false;
     previousTime := now;
     physicsAccumulator := 0 |}.

(** [init] ends with [animate(previousTime)]. *)
Definition init (now : R) : State := animate now (setup now).

(** A frame delivered [elapsed] milliseconds after the previous one. *)
Definition frameAfter (elapsed : R) (s : State) : State :=
  animate (previousTime s + elapsed) s.

Definition frames (elapsed : list R) (s : State) : State :=
  fold_left (fun s dt => frameAfter dt s) elapsed s.

(** Number of physics ticks executed by the frame [animate t s]. *)
Definition ticksExecuted (currentTime : R) (s : State) : nat :=
  (ticks (world (animate currentTime s)) - ticks (world s))%nat.

(** The ray of the ground probe: from the body centre, straight down. *)
Definition groundRay (body : RigidBody) : Ray :=
  {| origin := translation body; dir := Vector3.new 0 (-1) 0 |}.

(** An object is shown when it is a child of the scene and visible; the
    source never clears [splatMesh.visible]. *)
Definition splatShown (s : State) : bool :=
  bool_decide (splatMesh ∈ children s).

Definition wireframeShown (s : State) : bool :=
  bool_decide (environmentMesh ∈ children s)
  && match environment s with Some m => visible m | None => false end.

Definition exactlyOneShown (s : State) : Prop :=
  xorb (splatShown s) (wireframeShown s) = true.

(** The part of the state the debug view lives in. *)
Definition viewOf (s : State) : list Object3D * option Mesh * bool :=
  (children s, environment s, splatsLoaded s).

(** The scene never lists a child twice, and the wireframe mesh, once
    created, is a child of the scene. *)
Definition sceneWellFormed (s : State) : Prop :=
  NoDup (children s)
  /\ (environment s <> None -> environmentMesh ∈ children s).

(** ** Runs: what a list of events says about keys, loads and time *)

(** The last event of the list about the key [code]: [Some true] for a
    press, [Some false] for a release, [None] when the list has none. *)
Fixpoint lastKeyEvent (code : string) (es : list Event) : option bool :=
  match es with
  | [] => None
  | e :: es' =>
      match lastKeyEvent code es' with
      | Some b => Some b
      | None =>
          match e with
          | KeyDown c => if String.eqb c code then Some true else None
          | KeyUp c => if String.eqb c code then Some false else None
          | _ => None
          end
      end
  end.

(** Number of [keydown] events for the key [code]. *)
Fixpoint keyPresses (code : string) (es : list Event) : nat :=
  match es with
  | [] => O
  | KeyDown c :: es' =>
      if String.eqb c code then S (keyPresses code es')
      else keyPresses code es'
  | _ :: es' => keyPresses code es'
  end.


(** The frame times, in seconds, that frames with the given elapsed
    times, in milliseconds, add to the accumulator. *)
Fixpoint clampedTime (elapsed : list R) : R :=
  match elapsed with
  | [] => 0
  | dt :: l => Rmin (dt / 1000) 0.1 + clampedTime l
  end.



(** What every reachable scene satisfies, as a property of the children
    of the scene, the wireframe mesh and the loaded flag. *)
Definition sceneInvariant
  (v : list Object3D * option Mesh * bool) : Prop :=
  let '(cs, env, loaded) := v in
  NoDup cs
  /\ hemiLight ∈ cs /\ dirLight ∈ cs /\ pointLight ∈ cs
  /\ (env <> None -> environmentMesh ∈ cs)
  /\ (loaded = false -> cs = [hemiLight; dirLight; pointLight] /\ env = None).

(** The debug flag and the view say the same. *)
Definition viewAgrees (s : State) : Prop :=
  wireframeShown s = debugMode s /\ splatShown s = negb (debugMode s).

(** The fields that make up the view and input state: neither the
    movement integrator, nor the physics loop, nor the camera
    synchronisation writes them. *)
Definition sameView (s s' : State) : Prop :=
  isLocked s' = isLocked s /\ children s' = children s /\
  environment s' = environment s /\ splatsLoaded s' = splatsLoaded s /\
  keyState s' = keyState s /\ debugMode s' = debugMode s.

(** ** Properties *)

(** *** Comparisons *)

Lemma Rleb_true (a b : R) : Rleb a b = true <-> a <= b.
Proof. unfold Rleb. destruct (Rle_dec a b); split; intros; auto; discriminate. Qed.

Lemma Rltb_true (a b : R) : Rltb a b = true <-> a < b.
Proof. unfold Rltb. destruct (Rlt_dec a b); split; intros; auto; discriminate. Qed.

Lemma Reqb_true (a b : R) : Reqb a b = true <-> a = b.
Proof. unfold Reqb. destruct (Req_dec_T a b); split; intros; auto; discriminate. Qed.

(** *** What each handler leaves alone *)

Lemma sameView_refl (s : State) : sameView s s.
Proof. repeat split. Qed.

Lemma sameView_trans (s1 s2 s3 : State) :
  sameView s1 s2 -> sameView s2 s3 -> sameView s1 s3.
Proof.
  unfold sameView. intros (? & ? & ? & ? & ? & ?) (? & ? & ? & ? & ? & ?).
  repeat split; congruence.
Qed.

Ltac by_cases_on_body s :=
  destruct (playerBody (world s)); [destruct (isLocked s) eqn:?|];
  cbn; repeat split; congruence.

Lemma updateMovement_view (dt : R) (s : State) :
  sameView s (updateMovement dt s).
Proof. unfold updateMovement, sameView. by_cases_on_body s. Qed.

Lemma updateMovement_accumulator (dt : R) (s : State) :
  physicsAccumulator (updateMovement dt s) = physicsAccumulator s.
Proof. unfold updateMovement. by_cases_on_body s. Qed.

Lemma updateMovement_previousTime (dt : R) (s : State) :
  previousTime (updateMovement dt s) = previousTime s.
Proof. unfold updateMovement. by_cases_on_body s. Qed.

Lemma updateMovement_ticks (dt : R) (s : State) :
  ticks (world (updateMovement dt s)) = ticks (world s).
Proof. unfold updateMovement. by_cases_on_body s. Qed.

Lemma updateMovement_camera (dt : R) (s : State) :
  camera (updateMovement dt s) = camera s.
Proof. unfold updateMovement. by_cases_on_body s. Qed.

Lemma physicsLoop_view (n : nat) (s : State) :
  sameView s (physicsLoop n s).
Proof.
  revert s; induction n as [|n IH]; intros s; [apply sameView_refl|].
  apply sameView_trans with (physicsTick s); [|apply IH].
  repeat split.
Qed.

Lemma physicsLoop_accumulator (n : nat) (s : State) :
  physicsAccumulator (physicsLoop n s)
  = physicsAccumulator s - INR n * FIXED_TIME_STEP.
Proof.
  revert s; induction n as [|n IH]; intros s.
  - cbn. lra.
  - change (physicsLoop (S n) s) with (physicsLoop n (physicsTick s)).
    rewrite IH, S_INR. cbn. lra.
Qed.

Lemma physicsLoop_ticks (n : nat) (s : State) :
  ticks (world (physicsLoop n s)) = (ticks (world s) + n)%nat.
Proof.
  revert s; induction n as [|n IH]; intros s.
  - cbn. lia.
  - change (physicsLoop (S n) s) with (physicsLoop n (physicsTick s)).
    rewrite IH. cbn. lia.
Qed.

Lemma physicsLoop_previousTime (n : nat) (s : State) :
  previousTime (physicsLoop n s) = previousTime s.
Proof.
  revert s; induction n as [|n IH]; intros s; [reflexivity|].
  change (physicsLoop (S n) s) with (physicsLoop n (physicsTick s)).
  now rewrite IH.
Qed.

Lemma physicsLoop_camera (n : nat) (s : State) :
  camera (physicsLoop n s) = camera s.
Proof.
  revert s; induction n as [|n IH]; intros s; [reflexivity|].
  change (physicsLoop (S n) s) with (physicsLoop n (physicsTick s)).
  now rewrite IH.
Qed.

Lemma syncCamera_view (s : State) : sameView s (syncCamera s).
Proof.
  unfold syncCamera. destruct (playerBody (world s)); repeat split.
Qed.

Lemma syncCamera_world (s : State) : world (syncCamera s) = world s.
Proof. unfold syncCamera. now destruct (playerBody (world s)). Qed.

Lemma syncCamera_accumulator (s : State) :
  physicsAccumulator (syncCamera s) = physicsAccumulator s.
Proof. unfold syncCamera. now destruct (playerBody (world s)). Qed.

Lemma syncCamera_previousTime (s : State) :
  previousTime (syncCamera s) = previousTime s.
Proof. unfold syncCamera. now destruct (playerBody (world s)). Qed.

Lemma syncCamera_quaternion (s : State) :
  quaternion (camera (syncCamera s)) = quaternion (camera s).
Proof. unfold syncCamera. now destruct (playerBody (world s)). Qed.

Lemma animate_view (t : R) (s : State) : sameView s (animate t s).
Proof.
  unfold animate.
  eapply sameView_trans; [|apply syncCamera_view].
  eapply sameView_trans; [|apply physicsLoop_view].
  eapply sameView_trans; [apply (updateMovement_view (frameTimeOf t s)
                                   (set_previousTime t s))|].
  repeat split.
Qed.

Lemma animate_accumulator (t : R) (s : State) :
  physicsAccumulator (animate t s)
  = physicsAccumulator s + frameTimeOf t s
    - INR (Z.to_nat (stepsOf (physicsAccumulator s + frameTimeOf t s)))
      * FIXED_TIME_STEP.
Proof.
  unfold animate.
  rewrite syncCamera_accumulator, physicsLoop_accumulator. cbn.
  rewrite updateMovement_accumulator. reflexivity.
Qed.

Lemma animate_previousTime (t : R) (s : State) :
  previousTime (animate t s) = t.
Proof.
  unfold animate.
  rewrite syncCamera_previousTime, physicsLoop_previousTime. cbn.
  rewrite updateMovement_previousTime. reflexivity.
Qed.

Lemma animate_ticks (t : R) (s : State) :
  ticks (world (animate t s))
  = (ticks (world s)
     + Z.to_nat (stepsOf (physicsAccumulator s + frameTimeOf t s)))%nat.
Proof.
  unfold animate.
  rewrite syncCamera_world, physicsLoop_ticks. cbn.
  rewrite updateMovement_ticks, updateMovement_accumulator. reflexivity.
Qed.

Lemma ticksExecuted_eq (t : R) (s : State) :
  ticksExecuted t s
  = Z.to_nat (stepsOf (physicsAccumulator s + frameTimeOf t s)).
Proof. unfold ticksExecuted. rewrite animate_ticks. lia. Qed.

(** *** The fixed-step driver: arithmetic of the step count *)

Lemma Zfloor_steps (a : R) :
  IZR (Zfloor (a / FIXED_TIME_STEP)) * FIXED_TIME_STEP <= a
  /\ a < (IZR (Zfloor (a / FIXED_TIME_STEP)) + 1) * FIXED_TIME_STEP.
Proof.
  pose proof (Zfloor_bound (a / FIXED_TIME_STEP)) as H.
  unfold FIXED_TIME_STEP in *. lra.
Qed.

Lemma stepsOf_eq (a : R) (k : Z) :
  IZR k * FIXED_TIME_STEP <= a < (IZR k + 1) * FIXED_TIME_STEP ->
  stepsOf a = Z.min k MAX_SUBSTEPS.
Proof.
  intros H. unfold stepsOf. f_equal. apply Zfloor_eq.
  unfold FIXED_TIME_STEP in *. lra.
Qed.

Lemma INR_to_nat (k : Z) : INR (Z.to_nat k) = IZR (Z.max 0 k).
Proof.
  rewrite INR_IZR_INZ. f_equal. lia.
Qed.

Lemma stepsOf_nonneg (a : R) : 0 <= a -> (0 <= stepsOf a)%Z.
Proof.
  intros Ha. unfold stepsOf, MAX_SUBSTEPS.
  assert (0 <= Zfloor (a / FIXED_TIME_STEP))%Z; [|lia].
  apply Zfloor_lub. unfold FIXED_TIME_STEP. lra.
Qed.

Lemma stepsOf_nonpos (a : R) : a < FIXED_TIME_STEP -> (stepsOf a <= 0)%Z.
Proof.
  intros Ha. unfold stepsOf.
  assert (Zfloor (a / FIXED_TIME_STEP) < 1)%Z; [|lia].
  apply lt_IZR. pose proof (Zfloor_steps a) as [H _].
  unfold FIXED_TIME_STEP in *. lra.
Qed.






Lemma frameAfter_frameTime (dt : R) (s : State) :
  frameTimeOf (previousTime s + dt) s = Rmin (dt / 1000) 0.1.
Proof. unfold frameTimeOf. f_equal. lra. Qed.


Lemma frames_app (l1 l2 : list R) (s : State) :
  frames (l1 ++ l2) s = frames l2 (frames l1 s).
Proof. unfold frames. apply fold_left_app. Qed.


(** [init] is [setup] followed by a frame with no elapsed time. *)
Lemma init_frames (now : R) : init now = frames [0] (setup now).
Proof.
  unfold init, frames, frameAfter. cbn. f_equal. lra.
Qed.

(** Evaluating one frame once the number of whole steps in the
    accumulated time is known. *)
Lemma frameAfter_accumulator (dt : R) (s : State) (k : Z) :
  let a := physicsAccumulator s + Rmin (dt / 1000) 0.1 in
  IZR k * FIXED_TIME_STEP <= a < (IZR k + 1) * FIXED_TIME_STEP ->
  physicsAccumulator (frameAfter dt s)
  = a - IZR (Z.max 0 (Z.min k MAX_SUBSTEPS)) * FIXED_TIME_STEP.
Proof.
  intros a Hk. unfold frameAfter.
  rewrite animate_accumulator, frameAfter_frameTime. fold a.
  rewrite INR_to_nat, (stepsOf_eq a k Hk). reflexivity.
Qed.

Lemma frameAfter_ticks (dt : R) (s : State) (k : Z) :
  let a := physicsAccumulator s + Rmin (dt / 1000) 0.1 in
  IZR k * FIXED_TIME_STEP <= a < (IZR k + 1) * FIXED_TIME_STEP ->
  ticksExecuted (previousTime s + dt) s
  = Z.to_nat (Z.min k MAX_SUBSTEPS)
  /\ stepsOf (physicsAccumulator s
              + frameTimeOf (previousTime s + dt) s)
     = Z.min k MAX_SUBSTEPS.
Proof.
  intros a Hk.
  rewrite ticksExecuted_eq, frameAfter_frameTime. fold a.
  rewrite (stepsOf_eq a k Hk). split; reflexivity.
Qed.

Lemma init_accumulator (now : R) : physicsAccumulator (init now) = 0.
Proof.
  rewrite init_frames. cbn.
  rewrite (frameAfter_accumulator 0 (setup now) 0).
  - unfold setup. cbn. eval_steps. rewrite Rmin_left by lra. lra.
  - unfold setup, FIXED_TIME_STEP. cbn. rewrite Rmin_left by lra. lra.
Qed.


(** C2 (as amended).  In every frame the number of physics ticks executed
    is [max(0, min(floor(accumulator / FIXED_TIME_STEP), MAX_SUBSTEPS))]
    for the accumulator with the frame time added; it is
    [min(floor(accumulator / FIXED_TIME_STEP), MAX_SUBSTEPS)] whenever that
    accumulator is non-negative; when the accumulated time implies more
    than [MAX_SUBSTEPS] ticks exactly [MAX_SUBSTEPS] execute; each tick
    advances the world once and subtracts exactly [FIXED_TIME_STEP]; and
    what is left, the accumulated time minus one [FIXED_TIME_STEP] per
    executed tick, is the accumulator the next frame starts from. *)
Theorem substep_count (t : R) (s : State) :
  let a := physicsAccumulator s + frameTimeOf t s in
  let floorSteps := Zfloor (a / FIXED_TIME_STEP) in
  Z.of_nat (ticksExecuted t s) = Z.max 0 (Z.min floorSteps MAX_SUBSTEPS)
  /\ (0 <= a ->
      Z.of_nat (ticksExecuted t s) = Z.min floorSteps MAX_SUBSTEPS)
  /\ ((MAX_SUBSTEPS < floorSteps)%Z ->
      Z.of_nat (ticksExecuted t s) = MAX_SUBSTEPS)
  /\ (forall s0 : State,
        ticks (world (physicsTick s0)) = S (ticks (world s0))
        /\ physicsAccumulator (physicsTick s0)
           = physicsAccumulator s0 - FIXED_TIME_STEP)
  /\ physicsAccumulator (animate t s)
     = a - INR (ticksExecuted t s) * FIXED_TIME_STEP
  /\ (forall t' : R,
        physicsAccumulator (animate t' (animate t s))
        = a - INR (ticksExecuted t s) * FIXED_TIME_STEP
          + frameTimeOf t' (animate t s)
          - INR (ticksExecuted t' (animate t s)) * FIXED_TIME_STEP).
Proof.
  intros a floorSteps.
  assert (physicsAccumulator (animate t s)
          = a - INR (ticksExecuted t s) * FIXED_TIME_STEP) as Hacc
    by (rewrite ticksExecuted_eq; apply animate_accumulator).
  split; [|split; [|split; [|split; [|split]]]].
  - rewrite ticksExecuted_eq. fold a. unfold stepsOf. fold floorSteps. lia.
  - intros Ha. rewrite ticksExecuted_eq. fold a.
    pose proof (stepsOf_nonneg a Ha) as Hk.
    unfold stepsOf in *. fold floorSteps in Hk |- *. lia.
  - intros Hcap. rewrite ticksExecuted_eq. fold a.
    unfold stepsOf. fold floorSteps. unfold MAX_SUBSTEPS in *. lia.
  - intros s0. split; reflexivity.
  - exact Hacc.
  - intros t'. rewrite (ticksExecuted_eq t'), (animate_accumulator t').
    rewrite Hacc. reflexivity.
Qed.


(** *** The wall-slide adjuster *)




(** *** The ground probe and the jump *)

Lemma Vector3_eta (v : Vector3.t) :
  Vector3.new (Vector3.x v) (Vector3.y v) (Vector3.z v) = v.
Proof. now destruct v. Qed.

Lemma isPlayerGrounded_unfold (s : State) (body : RigidBody) :
  playerBody (world s) = Some body ->
  isPlayerGrounded s
  = match castRayAndGetNormal (world s) (groundRay body)
            (PLAYER_HALF_HEIGHT + PLAYER_RADIUS + 0.6) true with
    | None => false
    | Some hit =>
        Rleb (toi hit) (PLAYER_HALF_HEIGHT + PLAYER_RADIUS + 0.12)
        && Rltb 0.3 (hitNormalY hit)
        && Rleb (Vector3.y (linvel body)) 0.6
    end.
Proof.
  intros Hb. unfold isPlayerGrounded, groundRay. rewrite Hb.
  rewrite Vector3_eta. reflexivity.
Qed.

(** C4.  With the player body present, the ground probe casts its ray
    from the body centre straight down with maximum distance half-height +
    radius + 0.6, and reports grounded exactly when that cast returns a hit
    whose distance is at most half-height + radius + 0.12, whose normal has
    a vertical component above 0.3 and the body's vertical velocity is at
    most 0.6; without a hit it reports not grounded.  The vertical
    component is read through [hitNormalY]; for a hit that carries its
    normal that is the normal's own [y]. *)
Theorem ground_probe_policy (s : State) (body : RigidBody) :
  playerBody (world s) = Some body ->
  let result :=
    castRayAndGetNormal (world s) (groundRay body)
      (PLAYER_HALF_HEIGHT + PLAYER_RADIUS + 0.6) true in
  (isPlayerGrounded s = true <->
   exists hit : RayHit,
     result = Some hit
     /\ toi hit <= PLAYER_HALF_HEIGHT + PLAYER_RADIUS + 0.12
     /\ hitNormalY hit > 0.3
     /\ Vector3.y (linvel body) <= 0.6)
  /\ (forall (hit : RayHit) (n : Vector3.t),
        result = Some hit -> normal hit = Some n ->
        (isPlayerGrounded s = true <->
         toi hit <= PLAYER_HALF_HEIGHT + PLAYER_RADIUS + 0.12
         /\ Vector3.y n > 0.3
         /\ Vector3.y (linvel body) <= 0.6))
  /\ (result = None -> isPlayerGrounded s = false).
Proof.
  intros Hb result. rewrite (isPlayerGrounded_unfold s body Hb). fold result.
  split; [|split].
  - destruct result as [hit|].
    + rewrite !andb_true_iff, !Rleb_true, Rltb_true. split.
      * intros [[H1 H2] H3]. exists hit. repeat split; auto.
      * intros (hit' & [= <-] & H1 & H2 & H3). repeat split; auto.
    + split; [discriminate|]. intros (hit & [=] & _).
  - intros hit n -> Hn.
    rewrite !andb_true_iff, !Rleb_true, Rltb_true.
    unfold hitNormalY. rewrite Hn. unfold Rgt. split.
    + intros [[H1 H2] H3]. repeat split; assumption.
    + intros (H1 & H2 & H3). repeat split; assumption.
  - intros ->. reflexivity.
Qed.

(** C9.  For a hit that carries no normal the probe takes the normal's
    vertical component to be 1.0, so the steepness test passes and the
    player is grounded exactly when the hit is near enough and the vertical
    velocity is low enough. *)
Theorem ground_probe_unknown_normal
  (s : State) (body : RigidBody) (hit : RayHit) :
  playerBody (world s) = Some body ->
  castRayAndGetNormal (world s) (groundRay body)
    (PLAYER_HALF_HEIGHT + PLAYER_RADIUS + 0.6) true = Some hit ->
  normal hit = None ->
  hitNormalY hit = 1.0
  /\ Rltb 0.3 (hitNormalY hit) = true
  /\ (isPlayerGrounded s = true <->
      toi hit <= PLAYER_HALF_HEIGHT + PLAYER_RADIUS + 0.12
      /\ Vector3.y (linvel body) <= 0.6).
Proof.
  intros Hb Hhit Hn.
  assert (hitNormalY hit = 1.0) as HY by (unfold hitNormalY; now rewrite Hn).
  assert (Rltb 0.3 (hitNormalY hit) = true) as Hsteep
    by (rewrite HY; apply Rltb_true; lra).
  split; [exact HY|split; [exact Hsteep|]].
  rewrite (isPlayerGrounded_unfold s body Hb), Hhit, Hsteep.
  rewrite andb_true_r, andb_true_iff, !Rleb_true. reflexivity.
Qed.

Lemma isPlayerGrounded_keyState
  (f : gmap string bool -> gmap string bool) (s : State) :
  isPlayerGrounded (set_keyState f s) = isPlayerGrounded s.
Proof. reflexivity. Qed.

(** C5.  On a press of the jump key with the player body present: when
    the ground probe reports not grounded the body, and so its velocity, is
    left as it was; when it reports grounded the vertical velocity becomes
    [PLAYER_JUMP_SPEED], the horizontal components of the velocity are kept
    and the body does not move. *)
Theorem jump_only_from_ground (s : State) (body : RigidBody) :
  playerBody (world s) = Some body ->
  (isPlayerGrounded s = false ->
   playerBody (world (keydown "Space" s)) = Some body)
  /\ (isPlayerGrounded s = true ->
      exists body' : RigidBody,
        playerBody (world (keydown "Space" s)) = Some body'
        /\ linvel body'
           = Vector3.new (Vector3.x (linvel body)) PLAYER_JUMP_SPEED
               (Vector3.z (linvel body))
        /\ translation body' = translation body).
Proof.
  intros Hb. unfold keydown. cbn [String.eqb Ascii.eqb Bool.eqb].
  cbn [world set_keyState]. rewrite Hb, isPlayerGrounded_keyState.
  split; intros ->.
  - cbn. exact Hb.
  - cbn. rewrite Hb. cbn. eexists. repeat split.
Qed.

(** *** Camera synchronisation *)

(** C6.  After a frame, the camera is at [(x, y - (h + r) + e, z)] for
    the translation [(x, y, z)] the player body has once the frame's
    physics ticks are done, [h] the half-height, [r] the radius and [e] the
    eye height; the frame does not touch the camera's orientation. *)
Theorem camera_feet_offset (t : R) (s : State) (body : RigidBody) :
  playerBody (world (animate t s)) = Some body ->
  position (camera (animate t s))
  = Vector3.new
      (Vector3.x (translation body))
      (Vector3.y (translation body) - (PLAYER_HALF_HEIGHT + PLAYER_RADIUS)
       + PLAYER_EYE_HEIGHT)
      (Vector3.z (translation body))
  /\ quaternion (camera (animate t s)) = quaternion (camera s).
Proof.
  unfold animate. cbn zeta.
  set (s1 := physicsLoop _ _).
  rewrite syncCamera_world. intros Hb. split.
  - unfold syncCamera. rewrite Hb. reflexivity.
  - rewrite syncCamera_quaternion. unfold s1.
    rewrite physicsLoop_camera. cbn. now rewrite updateMovement_camera.
Qed.

(** *** The debug view toggle *)

Lemma remove_subset (o x : Object3D) (cs : list Object3D) :
  x ∈ Object3D_remove o cs -> x ∈ cs.
Proof.
  induction cs as [|c cs IH]; cbn; [auto|].
  destruct (decide (c = o)).
  - intros H. now apply elem_of_cons; right.
  - rewrite !elem_of_cons. intros [->|H]; auto.
Qed.

Lemma remove_other (o x : Object3D) (cs : list Object3D) :
  x <> o -> x ∈ cs -> x ∈ Object3D_remove o cs.
Proof.
  intros Hne. induction cs as [|c cs IH]; cbn; [auto|].
  rewrite elem_of_cons. destruct (decide (c = o)) as [->|Hc].
  - intros [->|H]; [contradiction|exact H].
  - rewrite elem_of_cons. intros [->|H]; auto.
Qed.

Lemma remove_NoDup (o : Object3D) (cs : list Object3D) :
  NoDup cs -> NoDup (Object3D_remove o cs).
Proof.
  induction cs as [|c cs IH]; cbn; [auto|].
  rewrite NoDup_cons. intros [Hc Hcs].
  destruct (decide (c = o)); [exact Hcs|].
  apply NoDup_cons. split; [|auto].
  intros H. apply Hc. eapply remove_subset, H.
Qed.

Lemma remove_absent (o : Object3D) (cs : list Object3D) :
  NoDup cs -> o ∉ Object3D_remove o cs.
Proof.
  induction cs as [|c cs IH]; cbn; [intros _; apply not_elem_of_nil|].
  rewrite NoDup_cons. intros [Hc Hcs].
  destruct (decide (c = o)) as [->|Hne]; [exact Hc|].
  rewrite not_elem_of_cons. split; [congruence|auto].
Qed.

Lemma add_NoDup (o : Object3D) (cs : list Object3D) :
  NoDup cs -> NoDup (Object3D_add o cs).
Proof.
  intros H. unfold Object3D_add. apply NoDup_app. split; [|split].
  - now apply remove_NoDup.
  - intros x Hx. rewrite list_elem_of_singleton. intros ->.
    revert Hx. now apply remove_absent.
  - apply NoDup_singleton.
Qed.

Lemma add_present (o : Object3D) (cs : list Object3D) :
  o ∈ Object3D_add o cs.
Proof.
  unfold Object3D_add. rewrite elem_of_app, list_elem_of_singleton. auto.
Qed.

Lemma add_other (o x : Object3D) (cs : list Object3D) :
  x <> o -> (x ∈ Object3D_add o cs <-> x ∈ cs).
Proof.
  intros Hne. unfold Object3D_add.
  rewrite elem_of_app, list_elem_of_singleton. split.
  - intros [H|H]; [eapply remove_subset, H|contradiction].
  - intros H. left. now apply remove_other.
Qed.

Lemma toggleDebugMode_wellFormed (s : State) :
  sceneWellFormed s -> sceneWellFormed (toggleDebugMode s).
Proof.
  intros [Hnd Henv]. unfold toggleDebugMode, sceneWellFormed.
  destruct (splatsLoaded s); cbn; [|auto].
  destruct (debugMode s); cbn.
  - destruct (environment s) as [m|] eqn:He; cbn.
    + split; [now apply remove_NoDup|]. intros _.
      apply remove_other; [discriminate|]. apply Henv. discriminate.
    + split; [now apply add_NoDup, remove_NoDup|]. intros _.
      apply add_present.
  - destruct (environment s) as [m|] eqn:He; cbn; rewrite ?He.
    + split; [now apply add_NoDup|]. intros _.
      apply add_other; [discriminate|]. apply Henv. discriminate.
    + split; [now apply add_NoDup|]. contradiction.
Qed.

Lemma toggleDebugMode_exclusive (s : State) :
  sceneWellFormed s -> splatsLoaded s = true ->
  splatsLoaded (toggleDebugMode s) = true
  /\ exactlyOneShown (toggleDebugMode s).
Proof.
  intros [Hnd Henv] Hl.
  unfold toggleDebugMode, exactlyOneShown, splatShown, wireframeShown.
  rewrite Hl. cbn. destruct (debugMode s); cbn.
  - assert (splatMesh ∉ Object3D_remove splatMesh (children s)) as Hs
      by now apply remove_absent.
    destruct (environment s) as [m|] eqn:He; cbn; (split; [exact Hl|]).
    + rewrite (bool_decide_eq_false_2 _ Hs).
      rewrite bool_decide_eq_true_2; [reflexivity|].
      apply remove_other; [discriminate|]. apply Henv. discriminate.
    + rewrite bool_decide_eq_false_2
        by (rewrite add_other by discriminate; exact Hs).
      rewrite bool_decide_eq_true_2 by apply add_present. reflexivity.
  - destruct (environment s) as [m|] eqn:He; cbn; rewrite ?He;
      (split; [exact Hl|]);
      rewrite bool_decide_eq_true_2 by apply add_present;
      cbn; now rewrite ?andb_false_r.
Qed.

Lemma onLoad_wellFormed (s : State) :
  sceneWellFormed s -> sceneWellFormed (onLoad s).
Proof.
  intros [Hnd Henv]. unfold onLoad, sceneWellFormed. cbn.
  destruct (environment s) as [m|] eqn:He; cbn; rewrite ?He.
  - split; [now apply add_NoDup|]. intros _.
    apply add_other; [discriminate|]. apply Henv. discriminate.
  - split; [now apply add_NoDup|]. contradiction.
Qed.

Lemma onLoad_exclusive (s : State) :
  splatsLoaded (onLoad s) = true /\ exactlyOneShown (onLoad s).
Proof.
  unfold onLoad, exactlyOneShown, splatShown, wireframeShown. cbn.
  destruct (environment s) as [m|] eqn:He; cbn; rewrite ?He;
    (split; [reflexivity|]);
    rewrite bool_decide_eq_true_2 by apply add_present;
    cbn; now rewrite ?andb_false_r.
Qed.

Lemma viewOf_wellFormed (s s' : State) :
  viewOf s' = viewOf s -> sceneWellFormed s -> sceneWellFormed s'.
Proof.
  unfold viewOf, sceneWellFormed. intros [= -> -> _]. auto.
Qed.

Lemma viewOf_exclusive (s s' : State) :
  viewOf s' = viewOf s ->
  splatsLoaded s = true /\ exactlyOneShown s ->
  splatsLoaded s' = true /\ exactlyOneShown s'.
Proof.
  unfold viewOf, exactlyOneShown, splatShown, wireframeShown.
  intros [= -> -> ->]. auto.
Qed.

Lemma keydown_viewOf (code : string) (s : State) :
  viewOf (keydown code s)
  = viewOf
      (if String.eqb code "KeyM"
       then toggleDebugMode
              (set_debugMode (negb (debugMode s))
                 (set_keyState (insert code true) s))
       else s).
Proof.
  unfold keydown. cbn [debugMode set_keyState].
  set (s2 := if String.eqb code "KeyM" then _ else _).
  assert (viewOf s2
          = viewOf (if String.eqb code "KeyM"
                    then toggleDebugMode
                           (set_debugMode (negb (debugMode s))
                              (set_keyState (insert code true) s))
                    else s)) as <-
    by (unfold s2; now destruct (String.eqb code "KeyM")).
  destruct (String.eqb code "Space"); [|reflexivity].
  destruct (playerBody (world s2)); [|reflexivity].
  now destruct (isPlayerGrounded s2).
Qed.

Lemma handle_viewOf (e : Event) (s : State) :
  match e with
  | KeyDown code =>
      viewOf (handle e s)
      = viewOf
          (if String.eqb code "KeyM"
           then toggleDebugMode
                  (set_debugMode (negb (debugMode s))
                     (set_keyState (insert code true) s))
           else s)
  | SplatsLoaded => handle e s = onLoad s
  | _ => viewOf (handle e s) = viewOf s
  end.
Proof.
  destruct e; cbn [handle]; try reflexivity.
  - apply keydown_viewOf.
  - destruct (animate_view currentTime s) as (_ & H1 & H2 & H3 & _).
    unfold viewOf. now rewrite H1, H2, H3.
Qed.

Lemma handle_wellFormed (e : Event) (s : State) :
  sceneWellFormed s -> sceneWellFormed (handle e s).
Proof.
  intros Hwf. pose proof (handle_viewOf e s) as H.
  destruct e; try (eapply viewOf_wellFormed; [exact H|exact Hwf]).
  - eapply viewOf_wellFormed; [exact H|].
    destruct (String.eqb code "KeyM"); [|exact Hwf].
    apply toggleDebugMode_wellFormed. exact Hwf.
  - rewrite H. now apply onLoad_wellFormed.
Qed.

Lemma handle_exclusive (e : Event) (s : State) :
  sceneWellFormed s ->
  splatsLoaded s = true /\ exactlyOneShown s ->
  splatsLoaded (handle e s) = true /\ exactlyOneShown (handle e s).
Proof.
  intros Hwf Hex. pose proof (handle_viewOf e s) as H.
  destruct e; try (eapply viewOf_exclusive; [exact H|exact Hex]).
  - eapply viewOf_exclusive; [exact H|].
    destruct (String.eqb code "KeyM"); [|exact Hex].
    apply toggleDebugMode_exclusive; [exact Hwf|apply Hex].
  - rewrite H. apply onLoad_exclusive.
Qed.

Lemma run_app (es1 es2 : list Event) (s : State) :
  run (es1 ++ es2) s = run es2 (run es1 s).
Proof. unfold run. apply fold_left_app. Qed.

Lemma run_wellFormed (es : list Event) (s : State) :
  sceneWellFormed s -> sceneWellFormed (run es s).
Proof.
  revert s; induction es as [|e es IH]; intros s Hwf; [exact Hwf|].
  cbn. apply IH. now apply handle_wellFormed.
Qed.

Lemma run_exclusive (es : list Event) (s : State) :
  sceneWellFormed s ->
  splatsLoaded s = true /\ exactlyOneShown s ->
  splatsLoaded (run es s) = true /\ exactlyOneShown (run es s).
Proof.
  revert s; induction es as [|e es IH]; intros s Hwf Hex; [exact Hex|].
  cbn. apply IH; [now apply handle_wellFormed|now apply handle_exclusive].
Qed.

Lemma setup_wellFormed (now : R) : sceneWellFormed (setup now).
Proof.
  split; [|now cbn].
  cbn. repeat (apply NoDup_cons; split;
    [rewrite ?elem_of_cons, ?elem_of_nil; intuition discriminate|]).
  apply NoDup_nil_2.
Qed.

(** C7 (as amended).  From the state that [init] sets up, after any
    events, the completion of the splat load and then any sequence of
    debug-toggle key presses (or other events), exactly one of the splat
    mesh and the wireframe mesh is shown, that is, attached to the scene
    graph and visible; the wireframe mesh, once created, stays attached to
    the scene graph. *)
Theorem debug_toggle_exclusive (now : R) (before after : list Event) :
  let s := run (before ++ SplatsLoaded :: after) (setup now) in
  xorb (splatShown s) (wireframeShown s) = true
  /\ (environment s <> None -> environmentMesh ∈ children s).
Proof.
  intros s. unfold s. rewrite run_app.
  change (run (SplatsLoaded :: after) ?x) with (run after (onLoad x)).
  assert (sceneWellFormed (onLoad (run before (setup now)))) as Hwf
    by (apply onLoad_wellFormed, run_wellFormed, setup_wellFormed).
  split.
  - apply run_exclusive; [exact Hwf|apply onLoad_exclusive].
  - apply (run_wellFormed after _ Hwf).
Qed.

(** C8 (as amended).  A press of the debug-toggle key before the splat
    load has completed is recorded in the input state and changes nothing
    of the physics world, the camera, the pointer lock, the scene graph,
    the wireframe mesh, the loaded flag or the timing state;
    [toggleDebugMode] itself returns at its loaded-flag guard with the
    state it was given. *)
Theorem toggle_before_load (s : State) :
  splatsLoaded s = false ->
  let s' := keydown "KeyM" s in
  toggleDebugMode s = s
  /\ world s' = world s /\ camera s' = camera s
  /\ isLocked s' = isLocked s /\ children s' = children s
  /\ environment s' = environment s /\ splatsLoaded s' = false
  /\ previousTime s' = previousTime s
  /\ physicsAccumulator s' = physicsAccumulator s
  /\ keyState s' = <["KeyM" := true]> (keyState s).
Proof.
  intros Hl. unfold keydown, toggleDebugMode. cbn. rewrite Hl. cbn.
  repeat split; auto.
Qed.

(** *** Frames in which no tick runs *)

Lemma updateMovement_unlocked (dt : R) (s : State) :
  isLocked s = false -> updateMovement dt s = s.
Proof.
  intros H. unfold updateMovement. rewrite H.
  now destruct (playerBody (world s)).
Qed.

Lemma animate_world_no_tick (t : R) (s : State) :
  isLocked s = false ->
  physicsAccumulator s + frameTimeOf t s < FIXED_TIME_STEP ->
  world (animate t s) = world s.
Proof.
  intros Hl Ha. unfold animate.
  rewrite syncCamera_world, updateMovement_unlocked by exact Hl.
  cbn [physicsAccumulator set_physicsAccumulator set_previousTime].
  rewrite (Z2Nat.nonpos (stepsOf _)) by now apply stepsOf_nonpos.
  reflexivity.
Qed.

(** *** The input state over a run *)

Lemma toggleDebugMode_flags (s : State) :
  keyState (toggleDebugMode s) = keyState s
  /\ debugMode (toggleDebugMode s) = debugMode s
  /\ splatsLoaded (toggleDebugMode s) = splatsLoaded s.
Proof.
  unfold toggleDebugMode.
  destruct (splatsLoaded s) eqn:Hl; cbn; [|now rewrite Hl].
  destruct (debugMode s) eqn:Hd; destruct (environment s); cbn;
    rewrite ?Hl, ?Hd; repeat split.
Qed.

Lemma keydown_keyState (code : string) (s : State) :
  keyState (keydown code s) = <[code := true]> (keyState s).
Proof.
  unfold keydown. cbn [debugMode set_keyState].
  set (s2 := if String.eqb code "KeyM" then _ else _).
  assert (keyState s2 = <[code := true]> (keyState s)) as <-.
  { unfold s2. destruct (String.eqb code "KeyM"); [|reflexivity].
    now rewrite (proj1 (toggleDebugMode_flags _)). }
  destruct (String.eqb code "Space"); [|reflexivity].
  destruct (playerBody (world s2)); [|reflexivity].
  now destruct (isPlayerGrounded s2).
Qed.

Lemma keydown_debugMode (code : string) (s : State) :
  debugMode (keydown code s)
  = if String.eqb code "KeyM" then negb (debugMode s) else debugMode s.
Proof.
  unfold keydown. cbn [debugMode set_keyState].
  set (s2 := if String.eqb code "KeyM" then _ else _).
  assert (debugMode s2
          = if String.eqb code "KeyM" then negb (debugMode s)
            else debugMode s) as <-.
  { unfold s2. destruct (String.eqb code "KeyM"); [|reflexivity].
    now rewrite (proj1 (proj2 (toggleDebugMode_flags _))). }
  destruct (String.eqb code "Space"); [|reflexivity].
  destruct (playerBody (world s2)); [|reflexivity].
  now destruct (isPlayerGrounded s2).
Qed.

Lemma handle_keyState (e : Event) (s : State) :
  keyState (handle e s)
  = match e with
    | KeyDown c => <[c := true]> (keyState s)
    | KeyUp c => <[c := false]> (keyState s)
    | _ => keyState s
    end.
Proof.
  destruct e; cbn [handle]; try reflexivity.
  - apply keydown_keyState.
  - unfold onLoad. now destruct (environment (set_splatsLoaded true s)).
  - now destruct (animate_view currentTime s) as (_ & _ & _ & _ & H & _).
Qed.

Lemma handle_debugMode (e : Event) (s : State) :
  debugMode (handle e s)
  = match e with
    | KeyDown c =>
        if String.eqb c "KeyM" then negb (debugMode s) else debugMode s
    | _ => debugMode s
    end.
Proof.
  destruct e; cbn [handle]; try reflexivity.
  - apply keydown_debugMode.
  - unfold onLoad. now destruct (environment (set_splatsLoaded true s)).
  - now destruct (animate_view currentTime s) as (_ & _ & _ & _ & _ & H).
Qed.

Lemma pressed_insert (ks : gmap string bool) (c code : string) (b : bool) :
  pressed (<[c := b]> ks) code
  = if String.eqb c code then b else pressed ks code.
Proof.
  unfold pressed. destruct (String.eqb c code) eqn:E.
  - apply String.eqb_eq in E. subst. now rewrite lookup_insert_eq.
  - apply String.eqb_neq in E. now rewrite lookup_insert_ne.
Qed.

(** X1.  The input tracker.  After any run of events, a key counts as pressed
    exactly when the last [keydown] or [keyup] event for it was a
    [keydown]; a key the run never mentions keeps the state it had (not
    pressed, for a key never seen). *)
Theorem key_state_tracks_last_event
  (code : string) (es : list Event) (s : State) (now : R) :
  pressed (keyState (run es s)) code
  = default (pressed (keyState s) code) (lastKeyEvent code es)
  /\ pressed (keyState (run es (setup now))) code
     = default false (lastKeyEvent code es).
Proof.
  assert (forall s0 : State,
            pressed (keyState (run es s0)) code
            = default (pressed (keyState s0) code) (lastKeyEvent code es))
    as H.
  { induction es as [|e es IH]; intros s0; [reflexivity|].
    change (run (e :: es) s0) with (run es (handle e s0)).
    rewrite IH. cbn [lastKeyEvent].
    destruct (lastKeyEvent code es) as [b|]; [reflexivity|].
    rewrite handle_keyState.
    destruct e; try reflexivity; rewrite pressed_insert;
      now destruct (String.eqb code0 code). }
  split; [apply H|]. rewrite H. reflexivity.
Qed.

(** *** Repeated key presses *)

Lemma isPlayerGrounded_world (s s' : State) :
  world s' = world s -> isPlayerGrounded s' = isPlayerGrounded s.
Proof. unfold isPlayerGrounded. now intros ->. Qed.





(** *** The debug flag over a run *)

Lemma debugMode_run (es : list Event) (s : State) :
  debugMode (run es s)
  = xorb (debugMode s) (Nat.odd (keyPresses "KeyM" es)).
Proof.
  revert s; induction es as [|e es IH]; intros s.
  - cbn. now rewrite xorb_false_r.
  - change (run (e :: es) s) with (run es (handle e s)).
    rewrite IH, handle_debugMode.
    destruct e; try reflexivity. cbn [keyPresses].
    destruct (String.eqb code "KeyM"); [|reflexivity].
    rewrite Nat.odd_succ, <- Nat.negb_odd.
    now destruct (debugMode s), (Nat.odd (keyPresses "KeyM" es)).
Qed.

(** *** The debug view over a run *)

Lemma shown_viewOf (s s' : State) :
  viewOf s' = viewOf s ->
  splatShown s' = splatShown s /\ wireframeShown s' = wireframeShown s.
Proof.
  unfold viewOf, splatShown, wireframeShown. intros [= -> -> _]. auto.
Qed.

Lemma toggleDebugMode_shows (s : State) :
  sceneWellFormed s -> splatsLoaded s = true ->
  wireframeShown (toggleDebugMode s) = debugMode s
  /\ splatShown (toggleDebugMode s) = negb (debugMode s).
Proof.
  intros [Hnd Henv] Hl.
  unfold toggleDebugMode, splatShown, wireframeShown.
  rewrite Hl. cbn. destruct (debugMode s); cbn.
  - assert (splatMesh ∉ Object3D_remove splatMesh (children s)) as Hs
      by now apply remove_absent.
    destruct (environment s) as [m|] eqn:He; cbn.
    + rewrite (bool_decide_eq_false_2 _ Hs).
      rewrite bool_decide_eq_true_2; [auto|].
      apply remove_other; [discriminate|]. apply Henv. discriminate.
    + rewrite (bool_decide_eq_false_2 (splatMesh ∈ _))
        by (rewrite add_other by discriminate; exact Hs).
      rewrite bool_decide_eq_true_2 by apply add_present. auto.
  - destruct (environment s) as [m|] eqn:He; cbn; rewrite ?He;
      rewrite (bool_decide_eq_true_2 (splatMesh ∈ _)) by apply add_present;
      cbn; rewrite ?andb_false_r; auto.
Qed.

Lemma onLoad_shows (s : State) :
  splatShown (onLoad s) = true /\ wireframeShown (onLoad s) = false.
Proof.
  unfold onLoad, splatShown, wireframeShown. cbn.
  destruct (environment s) as [m|] eqn:He; cbn; rewrite ?He;
    rewrite (bool_decide_eq_true_2 (splatMesh ∈ _)) by apply add_present;
    cbn; rewrite ?andb_false_r; auto.
Qed.

Lemma keydown_toggle_agrees (s : State) :
  sceneWellFormed s -> splatsLoaded s = true ->
  viewAgrees (keydown "KeyM" s).
Proof.
  intros Hwf Hl. unfold viewAgrees.
  pose proof (keydown_viewOf "KeyM" s) as Hv. cbn [String.eqb] in Hv.
  change (Ascii.eqb _ _ && _)%bool with true in Hv.
  destruct (shown_viewOf _ _ Hv) as [-> ->].
  rewrite keydown_debugMode. cbn [String.eqb].
  change (Ascii.eqb _ _ && _)%bool with true.
  apply (toggleDebugMode_shows
           (set_debugMode (negb (debugMode s))
              (set_keyState (insert "KeyM" true) s))); assumption.
Qed.




Lemma loaded_after_load (es : list Event) (s : State) :
  sceneWellFormed s ->
  sceneWellFormed (run es (onLoad s))
  /\ splatsLoaded (run es (onLoad s)) = true.
Proof.
  intros Hwf.
  assert (sceneWellFormed (onLoad s)) as Hwf' by now apply onLoad_wellFormed.
  split; [now apply run_wellFormed|].
  now apply run_exclusive; [|apply onLoad_exclusive].
Qed.


(** X4.  A press of the toggle key before the load is not lost on the flag.
    When the toggle key has been pressed an odd number of times by the time
    the load completes, the flag is on while the splat mesh is shown and
    the wireframe is not; the next press turns the flag off and changes
    nothing of what is shown. *)
Theorem early_press_desynchronises (now : R) (before : list Event) :
  Nat.odd (keyPresses "KeyM" before) = true ->
  let s := run (before ++ [SplatsLoaded]) (setup now) in
  debugMode s = true
  /\ splatShown s = true /\ wireframeShown s = false
  /\ debugMode (keydown "KeyM" s) = false
  /\ splatShown (keydown "KeyM" s) = true
  /\ wireframeShown (keydown "KeyM" s) = false.
Proof.
  intros Hodd s.
  assert (debugMode s = true) as Hd.
  { unfold s. rewrite debugMode_run.
    replace (keyPresses "KeyM" (before ++ [SplatsLoaded]))
      with (keyPresses "KeyM" before).
    - now rewrite Hodd.
    - clear. induction before as [|e l IH]; [reflexivity|].
      destruct e; cbn; try exact IH.
      destruct (String.eqb code "KeyM"); [now rewrite IH|exact IH]. }
  assert (s = onLoad (run before (setup now))) as Hs
    by (unfold s; now rewrite run_app).
  destruct (onLoad_shows (run before (setup now))) as [H1 H2].
  destruct (loaded_after_load [] (run before (setup now)))
    as [Hwf Hl]; [apply run_wellFormed, setup_wellFormed|].
  cbn [run fold_left] in Hwf, Hl. rewrite <- Hs in *.
  destruct (keydown_toggle_agrees s Hwf Hl) as [H3 H4].
  assert (debugMode (keydown "KeyM" s) = false) as Hd'
    by (rewrite keydown_debugMode; cbn; now rewrite Hd).
  rewrite Hd' in H3, H4. repeat split; assumption.
Qed.

(** *** The scene over a run *)


Ltac keep_child :=
  repeat first
    [ assumption
    | apply add_other; [discriminate|]
    | apply remove_other; [discriminate|] ].

Lemma toggleDebugMode_lights (s : State) :
  hemiLight ∈ children s -> dirLight ∈ children s ->
  pointLight ∈ children s ->
  hemiLight ∈ children (toggleDebugMode s)
  /\ dirLight ∈ children (toggleDebugMode s)
  /\ pointLight ∈ children (toggleDebugMode s).
Proof.
  intros H1 H2 H3. unfold toggleDebugMode.
  destruct (splatsLoaded s); cbn; [|auto].
  destruct (debugMode s); cbn;
    destruct (environment s) eqn:He; cbn; rewrite ?He; cbn;
    repeat split; keep_child.
Qed.

Lemma onLoad_lights (s : State) :
  hemiLight ∈ children s -> dirLight ∈ children s ->
  pointLight ∈ children s ->
  hemiLight ∈ children (onLoad s)
  /\ dirLight ∈ children (onLoad s)
  /\ pointLight ∈ children (onLoad s).
Proof.
  intros H1 H2 H3. unfold onLoad. cbn.
  destruct (environment s) eqn:He; cbn; repeat split; keep_child.
Qed.

Lemma toggleDebugMode_sceneInvariant (s : State) :
  sceneInvariant (viewOf s) -> sceneInvariant (viewOf (toggleDebugMode s)).
Proof.
  intros (Hnd & H1 & H2 & H3 & Henv & Hpre).
  destruct (toggleDebugMode_wellFormed s (conj Hnd Henv)) as [Hnd' Henv'].
  destruct (toggleDebugMode_lights s H1 H2 H3) as (L1 & L2 & L3).
  pose proof (proj2 (proj2 (toggleDebugMode_flags s))) as Hl.
  cbn [viewOf sceneInvariant]. rewrite Hl.
  split; [exact Hnd'|]. split; [exact L1|]. split; [exact L2|].
  split; [exact L3|]. split; [exact Henv'|].
  intros Hf. unfold toggleDebugMode. rewrite Hf. cbn. now apply Hpre.
Qed.

Lemma onLoad_sceneInvariant (s : State) :
  sceneInvariant (viewOf s) -> sceneInvariant (viewOf (onLoad s)).
Proof.
  intros (Hnd & H1 & H2 & H3 & Henv & Hpre).
  destruct (onLoad_wellFormed s (conj Hnd Henv)) as [Hnd' Henv'].
  destruct (onLoad_lights s H1 H2 H3) as (L1 & L2 & L3).
  cbn [viewOf sceneInvariant].
  rewrite (proj1 (onLoad_exclusive s)).
  split; [exact Hnd'|]. split; [exact L1|]. split; [exact L2|].
  split; [exact L3|]. split; [exact Henv'|]. discriminate.
Qed.

Lemma handle_sceneInvariant (e : Event) (s : State) :
  sceneInvariant (viewOf s) -> sceneInvariant (viewOf (handle e s)).
Proof.
  intros Hi. pose proof (handle_viewOf e s) as Hv.
  destruct e; try (rewrite Hv; exact Hi).
  - rewrite Hv. destruct (String.eqb code "KeyM"); [|exact Hi].
    apply toggleDebugMode_sceneInvariant. exact Hi.
  - rewrite Hv. now apply onLoad_sceneInvariant.
Qed.

(** X5.  The scene.  After any run of events from the state that [init] sets
    up, the scene lists no child twice and still holds the three lights;
    and as long as the splat load has not completed, the lights are all it
    holds: neither mesh is attached and the wireframe mesh does not
    exist. *)
Theorem scene_over_a_run (now : R) (es : list Event) :
  let s := run es (setup now) in
  NoDup (children s)
  /\ hemiLight ∈ children s /\ dirLight ∈ children s
  /\ pointLight ∈ children s
  /\ (splatsLoaded s = false ->
      children s = [hemiLight; dirLight; pointLight]
      /\ environment s = None).
Proof.
  assert (forall s0 : State,
            sceneInvariant (viewOf s0) ->
            sceneInvariant (viewOf (run es s0))) as H.
  { induction es as [|e es IH]; intros s0 Hi; [exact Hi|].
    apply IH, handle_sceneInvariant, Hi. }
  destruct (H (setup now)) as (Hnd & H1 & H2 & H3 & _ & Hpre).
  - destruct (setup_wellFormed now) as [Hnd Henv].
    cbn [viewOf sceneInvariant]. split; [exact Hnd|].
    cbn. rewrite !elem_of_cons. tauto.
  - cbn zeta. repeat split; try assumption; now apply Hpre.
Qed.

(** *** The movement integrator *)







(** X7.  The movement integrator never touches anything but the velocity of
    the player body (and its sleeping flag): the scene, the input state,
    the camera, the timing state, the tick count and the position of the
    body are as before; without the pointer lock it changes nothing at
    all, and the frame time it is given plays no part. *)
Theorem movement_only_sets_velocity (dt : R) (s : State) :
  let s' := updateMovement dt s in
  sameView s s'
  /\ camera s' = camera s
  /\ previousTime s' = previousTime s
  /\ physicsAccumulator s' = physicsAccumulator s
  /\ ticks (world s') = ticks (world s)
  /\ option_map translation (playerBody (world s'))
     = option_map translation (playerBody (world s))
  /\ (isLocked s = false -> s' = s)
  /\ (forall dt' : R, updateMovement dt' s = s').
Proof.
  cbv zeta.
  split; [apply updateMovement_view|].
  split; [apply updateMovement_camera|].
  split; [apply updateMovement_previousTime|].
  split; [apply updateMovement_accumulator|].
  split; [apply updateMovement_ticks|].
  split; [|split; [apply updateMovement_unlocked|reflexivity]].
  unfold updateMovement.
  destruct (playerBody (world s)) as [body|] eqn:Hb; [|now rewrite Hb].
  destruct (isLocked s); cbn; rewrite Hb; reflexivity.
Qed.

(** *** The fixed-step driver over a run *)

Lemma frames_cons (dt : R) (l : list R) (s : State) :
  frames (dt :: l) s = frames l (frameAfter dt s).
Proof. reflexivity. Qed.

Lemma frameAfter_balance (dt : R) (s : State) :
  INR (ticks (world (frameAfter dt s))) * FIXED_TIME_STEP
  + physicsAccumulator (frameAfter dt s)
  = INR (ticks (world s)) * FIXED_TIME_STEP + physicsAccumulator s
    + Rmin (dt / 1000) 0.1.
Proof.
  unfold frameAfter.
  rewrite animate_ticks, animate_accumulator, frameAfter_frameTime, plus_INR.
  ring.
Qed.

Lemma simulated_time_balance (elapsed : list R) (s : State) :
  INR (ticks (world (frames elapsed s))) * FIXED_TIME_STEP
  + physicsAccumulator (frames elapsed s)
  = INR (ticks (world s)) * FIXED_TIME_STEP + physicsAccumulator s
    + clampedTime elapsed.
Proof.
  revert s; induction elapsed as [|dt l IH]; intros s.
  - cbn. ring.
  - rewrite frames_cons, IH, frameAfter_balance. cbn [clampedTime]. ring.
Qed.

(** X8.  Simulated time is conserved.  Over any run of frames, whatever the
    elapsed times, the time the world has been advanced by (one
    [FIXED_TIME_STEP] per tick) plus what is waiting in the accumulator
    grows by exactly the clamped frame times: no time is dropped and none
    is invented, the cap only defers it. *)
Theorem simulated_time_is_conserved (elapsed : list R) (s : State) :
  INR (ticks (world (frames elapsed s))) * FIXED_TIME_STEP
  + physicsAccumulator (frames elapsed s)
  = INR (ticks (world s)) * FIXED_TIME_STEP + physicsAccumulator s
    + clampedTime elapsed.
Proof. apply simulated_time_balance. Qed.

Lemma slow_frame_steps (dt : R) (s : State) :
  0 <= physicsAccumulator s -> 100 <= dt ->
  stepsOf (physicsAccumulator s + Rmin (dt / 1000) 0.1) = 5%Z.
Proof.
  intros Ha Hdt. rewrite Rmin_right by lra.
  unfold stepsOf, MAX_SUBSTEPS.
  assert (6 <= Zfloor ((physicsAccumulator s + 0.1) / FIXED_TIME_STEP))%Z;
    [|lia].
  apply Zfloor_lub. unfold FIXED_TIME_STEP. lra.
Qed.

(** X9.  Sustained slow frames.  From a non-negative accumulator, every frame
    that comes 100 ms or more after the previous one runs exactly
    [MAX_SUBSTEPS] ticks and leaves one more [FIXED_TIME_STEP] in the
    accumulator: over such frames the backlog of simulated time grows
    without bound, by one step per frame. *)
Theorem slow_frames_build_backlog (elapsed : list R) (s : State) :
  0 <= physicsAccumulator s -> Forall (Rle 100) elapsed ->
  physicsAccumulator (frames elapsed s)
  = physicsAccumulator s + INR (length elapsed) * FIXED_TIME_STEP
  /\ ticks (world (frames elapsed s))
     = (ticks (world s) + 5 * length elapsed)%nat.
Proof.
  revert s; induction elapsed as [|dt l IH]; intros s Ha Hl.
  - cbn. split; [lra|lia].
  - apply Forall_cons in Hl as [Hdt Hl].
    assert (physicsAccumulator (frameAfter dt s)
            = physicsAccumulator s + FIXED_TIME_STEP) as Hacc.
    { unfold frameAfter.
      rewrite animate_accumulator, frameAfter_frameTime.
      rewrite (slow_frame_steps dt s Ha Hdt), Rmin_right by lra.
      rewrite INR_to_nat. change (Z.max 0 5) with 5%Z.
      unfold FIXED_TIME_STEP. lra. }
    assert (ticks (world (frameAfter dt s)) = (ticks (world s) + 5)%nat)
      as Htk.
    { unfold frameAfter. rewrite animate_ticks, frameAfter_frameTime.
      now rewrite (slow_frame_steps dt s Ha Hdt). }
    rewrite frames_cons.
    destruct (IH (frameAfter dt s)) as [-> ->];
      [rewrite Hacc; unfold FIXED_TIME_STEP; lra|exact Hl|].
    rewrite Hacc, Htk. cbn [length]. rewrite S_INR. split; [lra|lia].
Qed.





End Engine.

(** ** The model on explicit inputs *)

(** *** Fixed-step driver *)










Lemma init_previousTime (now : R) :
  previousTime (init openAir atRest lookingAhead now) = now.
Proof. unfold init. apply animate_previousTime. Qed.

Lemma backwards_frame_time :
  physicsAccumulator (init openAir atRest lookingAhead 1000)
  + frameTimeOf 995 (init openAir atRest lookingAhead 1000)
  = - 0.005.
Proof.
  rewrite init_accumulator. unfold frameTimeOf.
  rewrite init_previousTime, Rmin_left by lra. lra.
Qed.

(** C2, counterexample.  [init] reads the clock at 1000 ms and the next
    callback carries the time stamp 995 ms: the accumulated time is
    -0.005 s, [min(floor(accumulator / FIXED_TIME_STEP), MAX_SUBSTEPS)] is
    -1, and the loop runs no tick. *)
Lemma ticks_differ_from_formula :
  ticksExecuted openAir atRest lookingAhead 995
    (init openAir atRest lookingAhead 1000) = 0%nat
  /\ Z.min
       (Zfloor
          ((physicsAccumulator (init openAir atRest lookingAhead 1000)
            + frameTimeOf 995 (init openAir atRest lookingAhead 1000))
           / FIXED_TIME_STEP))
       MAX_SUBSTEPS = (-1)%Z.
Proof.
  rewrite ticksExecuted_eq. unfold stepsOf.
  rewrite backwards_frame_time.
  rewrite (Zfloor_eq (-1)) by (unfold FIXED_TIME_STEP; lra).
  split; reflexivity.
Qed.

Lemma slow_frame_time :
  physicsAccumulator (init openAir atRest lookingAhead 0)
  + frameTimeOf 100 (init openAir atRest lookingAhead 0)
  = 0.1.
Proof.
  rewrite init_accumulator. unfold frameTimeOf.
  rewrite init_previousTime, Rmin_left by lra. lra.
Qed.

(** C2, witness: a 100 ms frame right after [init]; the accumulated time
    is non-negative, the floor is 6 and the capped count 5. *)
Lemma substep_count_witness :
  0 <= physicsAccumulator (init openAir atRest lookingAhead 0)
       + frameTimeOf 100 (init openAir atRest lookingAhead 0)
  /\ Z.of_nat
       (ticksExecuted openAir atRest lookingAhead 100
          (init openAir atRest lookingAhead 0))
     = Z.min
         (Zfloor
            ((physicsAccumulator (init openAir atRest lookingAhead 0)
              + frameTimeOf 100 (init openAir atRest lookingAhead 0))
             / FIXED_TIME_STEP))
         MAX_SUBSTEPS.
Proof.
  assert (0 <= physicsAccumulator (init openAir atRest lookingAhead 0)
               + frameTimeOf 100 (init openAir atRest lookingAhead 0)) as Ha
    by (rewrite slow_frame_time; lra).
  split; [exact Ha|].
  exact (proj1 (proj2 (substep_count openAir atRest lookingAhead 100
                         (init openAir atRest lookingAhead 0))) Ha).
Defined.


(** *** Ground probe and jump *)

(** The body as [init] creates it. *)
Lemma setup_body (now : R) :
  playerBody (world (setup now))
  = Some {| translation := Vector3.new 0 1.2 0;
            linvel := Vector3.new 0 0 0;
            sleeping := false |}.
Proof. reflexivity. Qed.

Lemma grounded_on_flatFloor (now : R) :
  isPlayerGrounded flatFloor (setup now) = true.
Proof.
  rewrite (isPlayerGrounded_unfold flatFloor _ _ (setup_body now)).
  unfold flatFloor, hitNormalY. cbn.
  rewrite !andb_true_iff, !Rleb_true, Rltb_true. repeat split; lra.
Qed.

(** C4, witness: the freshly created body over a flat floor at its feet
    is grounded. *)
Lemma ground_probe_policy_witness :
  playerBody (world (setup 0))
  = Some {| translation := Vector3.new 0 1.2 0;
            linvel := Vector3.new 0 0 0;
            sleeping := false |}
  /\ isPlayerGrounded flatFloor (setup 0) = true.
Proof.
  split; [reflexivity|].
  apply (proj2 (proj1 (ground_probe_policy flatFloor (setup 0) _
                         (setup_body 0)))).
  exists {| toi := PLAYER_HALF_HEIGHT + PLAYER_RADIUS;
            normal := Some (Vector3.new 0 1 0) |}.
  split; [reflexivity|]. unfold hitNormalY. cbn. repeat split; lra.
Defined.

(** C9, witness: the freshly created body over a hit without a normal
    is grounded. *)
Lemma ground_probe_unknown_normal_witness :
  bareHit (world (setup 0))
    (groundRay {| translation := Vector3.new 0 1.2 0;
                  linvel := Vector3.new 0 0 0;
                  sleeping := false |})
    (PLAYER_HALF_HEIGHT + PLAYER_RADIUS + 0.6) true
  = Some {| toi := PLAYER_HALF_HEIGHT + PLAYER_RADIUS; normal := None |}
  /\ isPlayerGrounded bareHit (setup 0) = true.
Proof.
  split; [reflexivity|].
  apply (proj2 (proj2 (ground_probe_unknown_normal bareHit (setup 0) _
                         {| toi := PLAYER_HALF_HEIGHT + PLAYER_RADIUS;
                            normal := None |}
                         (setup_body 0) eq_refl eq_refl))).
  cbn. split; lra.
Defined.

(** C5, witness: in open air the jump key leaves the body alone; on the
    flat floor it sets the vertical velocity to the jump speed. *)
Lemma jump_only_from_ground_witness :
  isPlayerGrounded openAir (setup 0) = false
  /\ playerBody (world (keydown openAir "Space" (setup 0)))
     = playerBody (world (setup 0))
  /\ isPlayerGrounded flatFloor (setup 0) = true
  /\ exists body' : RigidBody,
       playerBody (world (keydown flatFloor "Space" (setup 0))) = Some body'
       /\ linvel body' = Vector3.new 0 PLAYER_JUMP_SPEED 0
       /\ translation body' = Vector3.new 0 1.2 0.
Proof.
  assert (isPlayerGrounded openAir (setup 0) = false) as Hair
    by reflexivity.
  split; [exact Hair|split].
  - exact (proj1 (jump_only_from_ground openAir (setup 0) _ (setup_body 0))
             Hair).
  - split; [apply grounded_on_flatFloor|].
    exact (proj2 (jump_only_from_ground flatFloor (setup 0) _
                    (setup_body 0))
             (grounded_on_flatFloor 0)).
Defined.

(** *** Camera synchronisation *)

Lemma first_frame_body :
  playerBody (world (animate openAir atRest lookingAhead 0 (setup 0)))
  = Some {| translation := Vector3.new 0 1.2 0;
            linvel := Vector3.new 0 0 0;
            sleeping := false |}.
Proof.
  rewrite animate_world_no_tick; [reflexivity|reflexivity|].
  unfold frameTimeOf. cbn [physicsAccumulator previousTime setup].
  rewrite Rmin_left by lra. unfold FIXED_TIME_STEP. lra.
Qed.

(** C6, witness: the first frame puts the camera at eye height above the
    feet of the freshly created body. *)
Lemma camera_feet_offset_witness :
  playerBody (world (animate openAir atRest lookingAhead 0 (setup 0)))
  = Some {| translation := Vector3.new 0 1.2 0;
            linvel := Vector3.new 0 0 0;
            sleeping := false |}
  /\ position (camera (animate openAir atRest lookingAhead 0 (setup 0)))
     = Vector3.new 0
         (1.2 - (PLAYER_HALF_HEIGHT + PLAYER_RADIUS) + PLAYER_EYE_HEIGHT) 0.
Proof.
  split; [exact first_frame_body|].
  exact (proj1 (camera_feet_offset openAir atRest lookingAhead 0 (setup 0) _
                  first_frame_body)).
Defined.

(** *** Debug view toggle *)

(** Load, then two presses of the toggle key, from a state showing only
    the lights with the debug flag off. *)
Lemma children_after_two_toggles
  (cast : World -> Ray -> R -> bool -> option RayHit) (s : State) :
  children s = [hemiLight; dirLight; pointLight] ->
  environment s = None -> debugMode s = false ->
  let s' := keydown cast "KeyM" (keydown cast "KeyM" (onLoad s)) in
  children s'
  = [hemiLight; dirLight; pointLight; environmentMesh; splatMesh]
  /\ environment s' = Some {| visible := false |}
  /\ splatsLoaded s' = true.
Proof.
  intros Hc He Hd.
  assert (onLoad s
          = set_children (Object3D_add splatMesh) (set_splatsLoaded true s))
    as -> by (unfold onLoad; cbn; now rewrite He).
  unfold keydown, toggleDebugMode.
  repeat (cbn; rewrite ?He, ?Hd, ?Hc).
  unfold Object3D_add. cbn. repeat split.
Qed.

Lemma init_view (now : R) :
  children (init openAir atRest lookingAhead now)
  = [hemiLight; dirLight; pointLight]
  /\ environment (init openAir atRest lookingAhead now) = None
  /\ debugMode (init openAir atRest lookingAhead now) = false
  /\ splatsLoaded (init openAir atRest lookingAhead now) = false.
Proof.
  destruct (animate_view openAir atRest lookingAhead now (setup now))
    as (_ & H1 & H2 & H3 & _ & H4).
  unfold init. rewrite H1, H2, H3, H4. repeat split.
Qed.

(** C7, counterexample.  After [init], the completion of the load and
    two presses of the toggle key, the splat mesh and the wireframe mesh are
    both children of the scene (the wireframe mesh hidden, not removed). *)
Lemma both_meshes_attached :
  splatsLoaded
    (run openAir atRest lookingAhead
       [Frame 0; SplatsLoaded; KeyDown "KeyM"; KeyDown "KeyM"] (setup 0))
  = true
  /\ splatMesh
     ∈ children
         (run openAir atRest lookingAhead
            [Frame 0; SplatsLoaded; KeyDown "KeyM"; KeyDown "KeyM"]
            (setup 0))
  /\ environmentMesh
     ∈ children
         (run openAir atRest lookingAhead
            [Frame 0; SplatsLoaded; KeyDown "KeyM"; KeyDown "KeyM"]
            (setup 0)).
Proof.
  change (run openAir atRest lookingAhead
            [Frame 0; SplatsLoaded; KeyDown "KeyM"; KeyDown "KeyM"]
            (setup 0))
    with (keydown openAir "KeyM"
            (keydown openAir "KeyM"
               (onLoad (init openAir atRest lookingAhead 0)))).
  destruct (init_view 0) as (Hc & He & Hd & _).
  destruct (children_after_two_toggles openAir _ Hc He Hd)
    as (-> & _ & ->).
  split; [reflexivity|].
  rewrite !elem_of_cons. tauto.
Qed.

(** C7, witness: after the load and one press of the toggle key the
    wireframe mesh exists and is attached. *)
Lemma debug_toggle_exclusive_witness :
  xorb
    (splatShown
       (run openAir atRest lookingAhead
          ([Frame 0] ++ SplatsLoaded :: [KeyDown "KeyM"]) (setup 0)))
    (wireframeShown
       (run openAir atRest lookingAhead
          ([Frame 0] ++ SplatsLoaded :: [KeyDown "KeyM"]) (setup 0)))
  = true.
Proof.
  exact (proj1 (debug_toggle_exclusive openAir atRest lookingAhead 0
                  [Frame 0] [KeyDown "KeyM"])).
Defined.

(** What the toggle key does to the debug flag before the load. *)
Lemma debugMode_before_load
  (cast : World -> Ray -> R -> bool -> option RayHit) (s : State) :
  splatsLoaded s = false ->
  debugMode (keydown cast "KeyM" s) = negb (debugMode s).
Proof.
  intros Hl. unfold keydown, toggleDebugMode. cbn. now rewrite Hl.
Qed.

(** C8, counterexample.  Right after [init], before the splat load has
    completed, a press of the toggle key turns the debug flag on and
    records the key as pressed: the state has changed. *)
Lemma early_toggle_changes_state :
  splatsLoaded (init openAir atRest lookingAhead 0) = false
  /\ debugMode (init openAir atRest lookingAhead 0) = false
  /\ debugMode (keydown openAir "KeyM" (init openAir atRest lookingAhead 0))
     = true
  /\ keydown openAir "KeyM" (init openAir atRest lookingAhead 0)
     <> init openAir atRest lookingAhead 0.
Proof.
  destruct (init_view 0) as (_ & _ & Hd & Hl).
  assert (debugMode
            (keydown openAir "KeyM" (init openAir atRest lookingAhead 0))
          = true) as Hd'
    by (rewrite debugMode_before_load by exact Hl; now rewrite Hd).
  repeat split; try assumption.
  intros Heq. rewrite Heq, Hd in Hd'. discriminate.
Qed.

(** C8, witness: the state set up by [init], where nothing is loaded. *)
Lemma toggle_before_load_witness :
  splatsLoaded (setup 0) = false
  /\ children (keydown openAir "KeyM" (setup 0)) = children (setup 0)
  /\ environment (keydown openAir "KeyM" (setup 0)) = environment (setup 0)
  /\ keyState (keydown openAir "KeyM" (setup 0)) = <["KeyM" := true]> ∅.
Proof.
  pose proof (toggle_before_load openAir (setup 0) eq_refl)
    as (_ & _ & _ & _ & Hc & He & _ & _ & _ & Hk).
  repeat split; assumption.
Defined.

(** ** Asset locations *)

Lemma append_inj_r (a b c : string) :
  String.append a b = String.append a c -> b = c.
Proof.
  induction a as [|ch a IH]; cbn; [auto|]. intros [= H]. auto.
Qed.

Lemma prefix_append (a b : string) : String.prefix a (String.append a b) = true.
Proof.
  induction a as [|ch a IH]; [now destruct b|].
  change (String.append (String ch a) b) with (String ch (String.append a b)).
  change (String.prefix (String ch a) (String ch (String.append a b)))
    with (if Ascii.ascii_dec ch ch
          then String.prefix a (String.append a b) else false).
  destruct (Ascii.ascii_dec ch ch); [exact IH|contradiction].
Qed.

Lemma bucket_nonempty (env : option string) :
  Config.R2_BUCKET_URL env <> "".
Proof.
  unfold Config.R2_BUCKET_URL. destruct env as [url|]; [|discriminate].
  destruct (String.eqb url "") eqn:E; [discriminate|].
  now apply String.eqb_neq.
Qed.

(** X11.  Asset locations.  The bucket is the configured one when
    [VITE_R2_BUCKET_URL] is set to a non-empty string and the built-in one
    otherwise, so it is never empty.  Every asset URL starts with the
    bucket; two file names get the same URL only when they are the same
    name; model and image URLs are built the same way; and the twelve
    URLs of the asset tables are pairwise distinct, whatever the bucket. *)
Theorem asset_urls (env : option string) :
  Config.R2_BUCKET_URL env <> ""
  /\ (forall url : string,
        url <> "" -> Config.R2_BUCKET_URL (Some url) = url)
  /\ Config.R2_BUCKET_URL (Some "") = Config.DEFAULT_BUCKET_URL
  /\ Config.R2_BUCKET_URL None = Config.DEFAULT_BUCKET_URL
  /\ (forall f : string,
        String.prefix (Config.R2_BUCKET_URL env) (Config.getAssetUrl env f)
        = true)
  /\ (forall f g : string,
        Config.getAssetUrl env f = Config.getAssetUrl env g -> f = g)
  /\ (forall f : string, Config.getImageUrl env f = Config.getAssetUrl env f)
  /\ NoDup (Config.allUrls env).
Proof.
  split; [apply bucket_nonempty|].
  split.
  { intros url Hne. unfold Config.R2_BUCKET_URL.
    apply String.eqb_neq in Hne. now rewrite Hne. }
  split; [reflexivity|]. split; [reflexivity|].
  split; [intros f; apply prefix_append|].
  assert (forall f g : string,
            Config.getAssetUrl env f = Config.getAssetUrl env g -> f = g)
    as Hinj.
  { intros f g H. unfold Config.getAssetUrl in H.
    apply append_inj_r in H. now apply append_inj_r in H. }
  split; [exact Hinj|]. split; [reflexivity|].
  unfold Config.allUrls, Config.IMAGE_URLS. cbn [Config.ANCIENT_PREVIEW
    Config.COOPER_STATION_PREVIEW Config.UNDERGROUND_PREVIEW
    Config.VALLEY_PREVIEW Config.ROME_PREVIEW Config.TEMPLE_PREVIEW].
  change (Config.getImageUrl env) with (Config.getAssetUrl env).
  apply (NoDup_fmap_2 (Config.getAssetUrl env)
           [ _; _; _; _; _; _; _; _; _; _; _; _ ]).
  cbn. apply (bool_decide_unpack _). vm_compute. exact I.
Qed.

(** ** The mute flag *)

Lemma clicks_after (n : nat) (p : Volume.Page) :
  Volume.MUTED (Volume.clicks n p) = xorb (Volume.MUTED p) (Nat.odd n)
  /\ (Volume.volumeToggle p = None ->
      Volume.volumeToggle (Volume.clicks n p) = None)
  /\ (Volume.volumeToggle p
      = Some (if Volume.MUTED p then Volume.iconMuted else Volume.iconSound)
      -> Volume.volumeToggle (Volume.clicks n p)
         = Some (if Volume.MUTED (Volume.clicks n p)
                 then Volume.iconMuted else Volume.iconSound)).
Proof.
  revert p; induction n as [|n IH]; intros p.
  - cbn. rewrite xorb_false_r. auto.
  - cbn [Volume.clicks]. destruct (IH (Volume.click p)) as (H1 & H2 & H3).
    split; [|split].
    + rewrite H1, Nat.odd_succ, <- Nat.negb_odd. cbn.
      now destruct (Volume.MUTED p), (Nat.odd n).
    + intros Hn. apply H2. cbn. now rewrite Hn.
    + intros Hs. apply H3. cbn. now rewrite Hs.
Qed.

(** X12.  The volume button.  Once [init] has wired it, after any number of
    clicks the mute flag is the initial one flipped once per click, and
    the button shows the muted icon exactly when the flag is on; a page
    without the button keeps none. *)
Theorem volume_button_shows_flag (n : nat) (p : Volume.Page) :
  let p' := Volume.clicks n (Volume.wire p) in
  Volume.MUTED p' = xorb (Volume.MUTED p) (Nat.odd n)
  /\ (Volume.volumeToggle p = None -> Volume.volumeToggle p' = None)
  /\ (Volume.volumeToggle p <> None ->
      Volume.volumeToggle p'
      = Some (if Volume.MUTED p' then Volume.iconMuted
              else Volume.iconSound)).
Proof.
  cbv zeta. destruct (clicks_after n (Volume.wire p)) as (H1 & H2 & H3).
  unfold Volume.wire in *.
  destruct (Volume.volumeToggle p) as [t|] eqn:Ht.
  - cbn in H1, H3. rewrite Ht in H3.
    split; [exact H1|]. split; [discriminate|]. intros _. now apply H3.
  - split; [exact H1|]. split; [intros _; now apply H2|]. contradiction.
Qed.

(** ** Materials for lighting *)

Lemma Object_induction (P : Materials.Object -> Prop) :
  (forall isMesh material children,
     Forall P children -> P (Materials.object isMesh material children)) ->
  forall o, P o.
Proof.
  intros H. fix IH 1. intros [isMesh material children]. apply H.
  induction children as [|c cs IHcs]; constructor; [apply IH|exact IHcs].
Qed.

Lemma thread_cons {A : Type} (f : A -> Materials.Heap -> A * Materials.Heap)
  (a : A) (l : list A) (h : Materials.Heap) :
  Materials.thread f (a :: l) h
  = (fst (f a h) :: fst (Materials.thread f l (snd (f a h))),
     snd (Materials.thread f l (snd (f a h)))).
Proof.
  cbn. destruct (f a h) as [a' h1]. cbn.
  now destruct (Materials.thread f l h1).
Qed.

Lemma visit_eq (k : R) (isMesh : bool) (material : option Materials.Slot)
  (h : Materials.Heap) :
  Materials.visit k isMesh material h
  = if isMesh then
      match material with
      | Some (Materials.single i) =>
          (Some (Materials.single (fst (Materials.adjust k i h))),
           snd (Materials.adjust k i h))
      | Some (Materials.array l) =>
          (Some (Materials.array
                   (fst (Materials.thread (Materials.adjust k) l h))),
           snd (Materials.thread (Materials.adjust k) l h))
      | None => (None, h)
      end
    else (material, h).
Proof.
  unfold Materials.visit. destruct isMesh; [|reflexivity].
  destruct material as [[i|l]|]; [| |reflexivity].
  - now destruct (Materials.adjust k i h).
  - now destruct (Materials.thread (Materials.adjust k) l h).
Qed.

Lemma setup_eq (k : R) (isMesh : bool) (material : option Materials.Slot)
  (children : list Materials.Object) (h : Materials.Heap) :
  Materials.setupMaterialsForLighting k
    (Materials.object isMesh material children) h
  = let v := Materials.visit k isMesh material h in
    let t :=
      Materials.thread (Materials.setupMaterialsForLighting k) children
        (snd v) in
    (Materials.object isMesh (fst v) (fst t), snd t).
Proof.
  cbn [Materials.setupMaterialsForLighting].
  destruct (Materials.visit k isMesh material h) as [m' h1]. cbn.
  now destruct (Materials.thread _ children h1).
Qed.

(** *** The shape of the tree *)

Lemma thread_length {A : Type}
  (f : A -> Materials.Heap -> A * Materials.Heap)
  (l : list A) (h : Materials.Heap) :
  length (fst (Materials.thread f l h)) = length l.
Proof.
  revert h; induction l as [|a l IH]; intros h; [reflexivity|].
  rewrite thread_cons. cbn. now rewrite IH.
Qed.

Lemma thread_map {A B : Type}
  (f : A -> Materials.Heap -> A * Materials.Heap) (g : A -> B)
  (l : list A) (h : Materials.Heap) :
  Forall (fun a => forall h0, g (fst (f a h0)) = g a) l ->
  List.map g (fst (Materials.thread f l h)) = List.map g l.
Proof.
  intros Hl. revert h; induction Hl as [|a l Ha _ IH]; intros h;
    [reflexivity|].
  rewrite thread_cons. cbn. now rewrite Ha, IH.
Qed.

(** X13.  The function keeps the shape of the tree: the same objects in the
    same places, a material where there was one, a single material where
    there was a single one and an array of the same length where there was
    an array (an empty array stays an empty array); only the references
    held by meshes can change. *)
Theorem materials_keep_tree_shape
  (k : R) (o : Materials.Object) (h : Materials.Heap) :
  Materials.shapeOf (fst (Materials.setupMaterialsForLighting k o h))
  = Materials.shapeOf o.
Proof.
  revert h. induction o as [isMesh material children IH]
    using Object_induction. intros h.
  rewrite setup_eq. cbn [fst Materials.shapeOf]. f_equal.
  - rewrite visit_eq. destruct isMesh; [|reflexivity].
    destruct material as [[i|l]|]; cbn; try reflexivity.
    now rewrite thread_length.
  - apply thread_map. exact IH.
Qed.

(** *** What one material becomes *)

Ltac adjust_cases :=
  unfold Materials.adjust;
  repeat match goal with
  | _ => progress cbn [Materials.type Materials.emissive
           Materials.emissiveIntensity Materials.color Materials.map
           Materials.normalMap Materials.roughness Materials.metalness
           Materials.transparent Materials.opacity
           Materials.set_emissive Materials.set_emissiveIntensity
           Materials.set_color Materials.set_roughness
           Materials.set_metalness Materials.set_transparent]
  | |- context [match Materials.emissive ?m with _ => _ end] =>
      destruct (Materials.emissive m) eqn:?
  | |- context [match Materials.emissiveIntensity ?m with _ => _ end] =>
      destruct (Materials.emissiveIntensity m) eqn:?
  | |- context [match Materials.roughness ?m with _ => _ end] =>
      destruct (Materials.roughness m) eqn:?
  | |- context [match Materials.metalness ?m with _ => _ end] =>
      destruct (Materials.metalness m) eqn:?
  | |- context [match Materials.color ?m with _ => _ end] =>
      destruct (Materials.color m) eqn:?
  | |- context [if String.eqb ?a ?b then _ else _] =>
      destruct (String.eqb a b) eqn:?
  | |- context [if Reqb ?a ?b then _ else _] =>
      destruct (Reqb a b) eqn:?
  | |- context [if (?a && ?b)%bool then _ else _] =>
      destruct (a && b)%bool eqn:?
  end.

Lemma adjust_next (k : R) (i : nat) (h : Materials.Heap) :
  (Materials.next h <= Materials.next (snd (Materials.adjust k i h)))%nat.
Proof. adjust_cases; cbn; lia. Qed.

Lemma adjust_other (k : R) (i j : nat) (h : Materials.Heap) :
  j <> i -> (j < Materials.next h)%nat ->
  Materials.materials (snd (Materials.adjust k i h)) j
  = Materials.materials h j.
Proof.
  intros Hne Hlt.
  assert (Nat.eqb j i = false) as E1 by now apply Nat.eqb_neq.
  assert (Nat.eqb j (Materials.next h) = false) as E2
    by (apply Nat.eqb_neq; lia).
  adjust_cases; cbn; now rewrite ?E2, ?E1.
Qed.

Lemma adjust_type (k : R) (i : nat) (h : Materials.Heap) :
  (i < Materials.next h)%nat ->
  Materials.type (Materials.materials (snd (Materials.adjust k i h)) i)
  = Materials.type (Materials.materials h i).
Proof.
  intros Hlt.
  assert (Nat.eqb i (Materials.next h) = false) as E2
    by (apply Nat.eqb_neq; lia).
  adjust_cases; cbn; now rewrite ?E2, Nat.eqb_refl.
Qed.

Lemma adjust_ref (k : R) (i : nat) (h : Materials.Heap) :
  (i < Materials.next h)%nat ->
  (fst (Materials.adjust k i h)
   < Materials.next (snd (Materials.adjust k i h)))%nat.
Proof. intros Hlt. adjust_cases; cbn; lia. Qed.

Lemma adjust_keeps_ref (k : R) (i : nat) (h : Materials.Heap) :
  Materials.type (Materials.materials h i) <> "MeshBasicMaterial" ->
  fst (Materials.adjust k i h) = i.
Proof.
  intros Ht. apply String.eqb_neq in Ht.
  adjust_cases; cbn; congruence.
Qed.

Lemma adjust_lit (k : R) (i : nat) (h : Materials.Heap) :
  Materials.lit
    (Materials.materials (snd (Materials.adjust k i h))
       (fst (Materials.adjust k i h))).
Proof.
  unfold Materials.lit.
  adjust_cases; cbn; rewrite ?Nat.eqb_refl; cbn;
    repeat match goal with
    | |- _ /\ _ => split
    | |- _ <> _ => first [discriminate | now apply String.eqb_neq]
    | |- forall _, _ => intros
    | H : Some _ = Some _ |- _ => injection H as <-
    | H : false = true |- _ => discriminate H
    | |- _ = _ => first [reflexivity | congruence]
    end.
  all: try match goal with
    | H : (?t && Reqb ?o 1)%bool = false, H' : ?t = true |- ?o <> 1 =>
        rewrite H' in H; cbn in H; intros Ho;
        apply Reqb_true in Ho; congruence
    end.
Qed.

(** *** Fit for lighting *)

Lemma adjust_lights (k : R) (i : nat) :
  Materials.lights (fun i => [i]) (Materials.adjust k) i.
Proof.
  intros h Hi. apply Forall_cons in Hi as [Hi _].
  split; [apply adjust_next|]. split.
  - intros j Hj Hlit. destruct (Nat.eq_dec j i) as [->|Hne].
    + pose proof (adjust_lit k i h) as H.
      now rewrite (adjust_keeps_ref k i h (proj1 Hlit)) in H.
    + now rewrite adjust_other.
  - cbn beta. constructor; [|constructor].
    split; [now apply adjust_ref|apply adjust_lit].
Qed.

Lemma thread_lights {A : Type} (refs : A -> list nat)
  (f : A -> Materials.Heap -> A * Materials.Heap) (l : list A) :
  Forall (Materials.lights refs f) l ->
  Materials.lights (flat_map refs) (Materials.thread f) l.
Proof.
  induction 1 as [|a l Ha _ IH]; intros h Hrefs.
  - cbn. split; [lia|]. split; [auto|constructor].
  - cbn [flat_map] in Hrefs. apply Forall_app in Hrefs as [Hra Hrl].
    destruct (Ha h Hra) as (Hn1 & Hs1 & Hr1).
    destruct (IH (snd (f a h))) as (Hn2 & Hs2 & Hr2).
    { eapply Forall_impl; [exact Hrl|]. cbn. intros. lia. }
    rewrite thread_cons. cbn [fst snd flat_map].
    split; [lia|]. split.
    + intros j Hj Hlit. apply Hs2; [lia|]. now apply Hs1.
    + apply Forall_app. split; [|exact Hr2].
      eapply Forall_impl; [exact Hr1|]. cbn. intros i [Hi Hlit].
      split; [lia|]. now apply Hs2.
Qed.

Lemma flat_map_singleton (l : list nat) : flat_map (fun i => [i]) l = l.
Proof. induction l as [|i l IH]; cbn; [reflexivity|now rewrite IH]. Qed.

Lemma visit_lights (k : R) (isMesh : bool)
  (material : option Materials.Slot) (h : Materials.Heap) :
  Forall (fun i => (i < Materials.next h)%nat)
    (if isMesh then Materials.slotRefs material else []) ->
  let v := Materials.visit k isMesh material h in
  (Materials.next h <= Materials.next (snd v))%nat
  /\ (forall j, (j < Materials.next h)%nat ->
      Materials.lit (Materials.materials h j) ->
      Materials.lit (Materials.materials (snd v) j))
  /\ Forall
       (fun i => (i < Materials.next (snd v))%nat
                 /\ Materials.lit (Materials.materials (snd v) i))
       (if isMesh then Materials.slotRefs (fst v) else []).
Proof.
  intros Hrefs. cbv zeta. rewrite visit_eq.
  destruct isMesh; [|cbn; split; [lia|split; [auto|constructor]]].
  destruct material as [[i|l]|]; cbn [fst snd Materials.slotRefs] in *.
  - apply (adjust_lights k i h Hrefs).
  - assert (Forall (Materials.lights (fun i => [i]) (Materials.adjust k)) l)
      as Hl by (apply Forall_forall; intros; apply adjust_lights).
    rewrite <- (flat_map_singleton l) in Hrefs.
    destruct (thread_lights _ _ l Hl h Hrefs) as (H1 & H2 & H3).
    rewrite flat_map_singleton in H3. auto.
  - split; [lia|split; [auto|constructor]].
Qed.

Lemma setup_lights (k : R) (o : Materials.Object) :
  Materials.lights Materials.meshRefs
    (Materials.setupMaterialsForLighting k) o.
Proof.
  induction o as [isMesh material children IH] using Object_induction.
  intros h Hrefs. cbn [Materials.meshRefs] in Hrefs.
  apply Forall_app in Hrefs as [Hown Hkids].
  destruct (visit_lights k isMesh material h Hown) as (Hn1 & Hs1 & Hr1).
  destruct (thread_lights _ _ children IH
              (snd (Materials.visit k isMesh material h)))
    as (Hn2 & Hs2 & Hr2).
  { eapply Forall_impl; [exact Hkids|]. cbn. intros. lia. }
  rewrite setup_eq. cbn [fst snd Materials.meshRefs].
  split; [lia|]. split.
  - intros j Hj Hlit. apply Hs2; [lia|]. now apply Hs1.
  - apply Forall_app. split; [|exact Hr2].
    eapply Forall_impl; [exact Hr1|]. cbn. intros i [Hi Hlit].
    split; [lia|]. now apply Hs2.
Qed.

(** X14.  After the function has run over a tree whose meshes refer to
    materials of the store, every material a mesh of the tree refers to is
    fit for lighting: none is a basic material (each of those has been
    replaced by a standard material), none has an emission colour other
    than black, each has roughness 0.8 and metalness 0.1 where it has
    these properties, and none is flagged transparent while fully opaque.
    Materials that were fit for lighting before still are. *)
Theorem materials_fit_for_lighting
  (k : R) (o : Materials.Object) (h : Materials.Heap) :
  Forall (fun i => (i < Materials.next h)%nat) (Materials.meshRefs o) ->
  let result := Materials.setupMaterialsForLighting k o h in
  Forall (fun i => Materials.lit (Materials.materials (snd result) i))
    (Materials.meshRefs (fst result))
  /\ (forall j, (j < Materials.next h)%nat ->
      Materials.lit (Materials.materials h j) ->
      Materials.lit (Materials.materials (snd result) j)).
Proof.
  intros Hrefs. cbv zeta.
  destruct (setup_lights k o h Hrefs) as (_ & Hs & Hr).
  split; [|exact Hs].
  eapply Forall_impl; [exact Hr|]. cbn. tauto.
Qed.

(** *** Brightness *)

Lemma scale_one (c : Materials.Color) : Materials.scale c 1 = c.
Proof.
  destruct c as [r g b]. unfold Materials.scale. cbn. f_equal; ring.
Qed.

Lemma scale_scale (c : Materials.Color) (a b : R) :
  Materials.scale (Materials.scale c a) b = Materials.scale c (a * b).
Proof.
  destruct c as [r g bl]. unfold Materials.scale. cbn. f_equal; ring.
Qed.

Lemma count_app (i : nat) (l1 l2 : list nat) :
  Materials.count i (l1 ++ l2)
  = (Materials.count i l1 + Materials.count i l2)%nat.
Proof.
  unfold Materials.count. now rewrite filter_app, length_app.
Qed.

Lemma count_singleton (i j : nat) :
  Materials.count i [j] = if Nat.eqb j i then 1%nat else 0%nat.
Proof.
  unfold Materials.count. rewrite filter_cons, filter_nil.
  destruct (Nat.eqb j i) eqn:E.
  - apply Nat.eqb_eq in E. now rewrite decide_True.
  - apply Nat.eqb_neq in E. now rewrite decide_False.
Qed.

Lemma adjust_color (k : R) (i : nat) (h : Materials.Heap)
  (c : Materials.Color) :
  (i < Materials.next h)%nat ->
  Materials.type (Materials.materials h i) <> "MeshBasicMaterial" ->
  Materials.color (Materials.materials h i) = Some c ->
  Materials.color (Materials.materials (snd (Materials.adjust k i h)) i)
  = Some (Materials.scale c k).
Proof.
  intros Hlt Ht Hc. apply String.eqb_neq in Ht.
  adjust_cases; cbn; rewrite ?Nat.eqb_refl; cbn; try congruence.
  all: injection Hc as ->.
  all: try reflexivity.
  all: match goal with
       | H : Reqb _ 1.0 = true |- _ => apply Reqb_true in H; rewrite H
       end.
  all: match goal with
       | H : Materials.color _ = Some _ |- _ => rewrite H
       end.
  all: f_equal; symmetry; replace 1.0 with 1 by lra; apply scale_one.
Qed.

Lemma adjust_brightens (k : R) (i0 : nat) :
  Materials.brightens k (fun i => [i]) (Materials.adjust k) i0.
Proof.
  intros h i c Hlt Ht Hc. split; [apply adjust_next|].
  rewrite count_singleton. destruct (Nat.eqb i0 i) eqn:E.
  - apply Nat.eqb_eq in E. subst i0.
    rewrite adjust_type by exact Hlt. split; [exact Ht|].
    rewrite (adjust_color k i h c Hlt Ht Hc). now rewrite pow_1.
  - apply Nat.eqb_neq in E.
    rewrite adjust_other by (auto; lia). split; [exact Ht|].
    rewrite Hc. cbn [pow]. now rewrite scale_one.
Qed.

Lemma thread_brightens {A : Type} (k : R) (refs : A -> list nat)
  (f : A -> Materials.Heap -> A * Materials.Heap) (l : list A) :
  Forall (Materials.brightens k refs f) l ->
  Materials.brightens k (flat_map refs) (Materials.thread f) l.
Proof.
  induction 1 as [|a l Ha _ IH]; intros h i c Hlt Ht Hc.
  - cbn. split; [lia|]. split; [exact Ht|]. now rewrite scale_one.
  - destruct (Ha h i c Hlt Ht Hc) as (Hn1 & Ht1 & Hc1).
    destruct (IH (snd (f a h)) i _ ltac:(lia) Ht1 Hc1) as (Hn2 & Ht2 & Hc2).
    rewrite thread_cons. cbn [fst snd flat_map].
    split; [lia|]. split; [exact Ht2|].
    now rewrite Hc2, scale_scale, count_app, pow_add.
Qed.

Lemma visit_brightens (k : R) (isMesh : bool)
  (material : option Materials.Slot) :
  Materials.brightens k
    (fun m => if isMesh then Materials.slotRefs m else [])
    (Materials.visit k isMesh) material.
Proof.
  intros h i c Hlt Ht Hc. rewrite visit_eq.
  destruct isMesh;
    [|cbn; split; [lia|split; [exact Ht|now rewrite scale_one]]].
  destruct material as [[i0|l]|]; cbn [fst snd Materials.slotRefs].
  - apply (adjust_brightens k i0 h i c Hlt Ht Hc).
  - assert (Forall (Materials.brightens k (fun i => [i])
                      (Materials.adjust k)) l) as Hl
      by (apply Forall_forall; intros; apply adjust_brightens).
    pose proof (thread_brightens k _ _ l Hl h i c Hlt Ht Hc) as H.
    now rewrite flat_map_singleton in H.
  - cbn. split; [lia|split; [exact Ht|now rewrite scale_one]].
Qed.

Lemma setup_brightens (k : R) (o : Materials.Object) :
  Materials.brightens k Materials.meshRefs
    (Materials.setupMaterialsForLighting k) o.
Proof.
  induction o as [isMesh material children IH] using Object_induction.
  intros h i c Hlt Ht Hc.
  destruct (visit_brightens k isMesh material h i c Hlt Ht Hc)
    as (Hn1 & Ht1 & Hc1).
  destruct (thread_brightens k _ _ children IH
              (snd (Materials.visit k isMesh material h)) i _
              ltac:(lia) Ht1 Hc1)
    as (Hn2 & Ht2 & Hc2).
  rewrite setup_eq. cbn [fst snd Materials.meshRefs].
  split; [lia|]. split; [exact Ht2|].
  now rewrite Hc2, scale_scale, count_app, pow_add.
Qed.

(** X15.  A material of the store that is not a basic material has its colour
    multiplied by the brightness multiplier once for every reference that
    the meshes of the tree hold to it: a material shared by [n] mesh slots
    ends with its colour scaled by the [n]-th power of the multiplier, and
    a material that no mesh refers to keeps its colour.  It is still not
    a basic material afterwards. *)
Theorem shared_materials_brighten_per_use
  (k : R) (o : Materials.Object) (h : Materials.Heap) (i : nat)
  (c : Materials.Color) :
  (i < Materials.next h)%nat ->
  Materials.type (Materials.materials h i) <> "MeshBasicMaterial" ->
  Materials.color (Materials.materials h i) = Some c ->
  let h' := snd (Materials.setupMaterialsForLighting k o h) in
  Materials.type (Materials.materials h' i) <> "MeshBasicMaterial"
  /\ Materials.color (Materials.materials h' i)
     = Some (Materials.scale c (k ^ Materials.uses i o)).
Proof.
  intros Hlt Ht Hc. cbv zeta.
  destruct (setup_brightens k o h i c Hlt Ht Hc) as (_ & Hty & Hcol).
  split; [exact Hty|exact Hcol].
Qed.

(** ** The further properties on sample inputs *)



(** X4, witness.  One press of the debug key while the splats load. *)
Lemma early_press_desynchronises_witness :
  Nat.odd (keyPresses "KeyM" [KeyDown "KeyM"]) = true
  /\ (let s :=
        run openAir atRest lookingAhead ([KeyDown "KeyM"] ++ [SplatsLoaded])
          (setup 0) in
      debugMode s = true
      /\ splatShown s = true
      /\ wireframeShown s = false
      /\ debugMode (keydown openAir "KeyM" s) = false
      /\ splatShown (keydown openAir "KeyM" s) = true
      /\ wireframeShown (keydown openAir "KeyM" s) = false).
Proof.
  split; [reflexivity|].
  exact (early_press_desynchronises openAir atRest lookingAhead 0
           [KeyDown "KeyM"] eq_refl).
Defined.


(** X9, witness.  Two frames that arrive 100 ms and 120 ms apart. *)
Lemma slow_frames_build_backlog_witness :
  0 <= physicsAccumulator (setup 0)
  /\ Forall (Rle 100) [100; 120]
  /\ physicsAccumulator
       (frames openAir atRest lookingAhead [100; 120] (setup 0))
     = physicsAccumulator (setup 0)
       + INR (length [100; 120]) * FIXED_TIME_STEP
  /\ ticks (world (frames openAir atRest lookingAhead [100; 120] (setup 0)))
     = (ticks (world (setup 0)) + 5 * length [100; 120])%nat.
Proof.
  assert (0 <= physicsAccumulator (setup 0)) as H0 by (cbn; lra).
  assert (Forall (Rle 100) [100; 120]) as Hl
    by (constructor; [lra|constructor; [lra|constructor]]).
  split; [exact H0|]. split; [exact Hl|].
  exact (slow_frames_build_backlog openAir atRest lookingAhead
           [100; 120] (setup 0) H0 Hl).
Defined.


(** X14, witness.  The sample tree over the sample store. *)
Lemma materials_fit_for_lighting_witness :
  Forall (fun i => (i < Materials.next sampleStore)%nat)
    (Materials.meshRefs sampleTree)
  /\ (let result :=
        Materials.setupMaterialsForLighting 2 sampleTree sampleStore in
      Forall (fun i => Materials.lit (Materials.materials (snd result) i))
        (Materials.meshRefs (fst result))
      /\ (forall j, (j < Materials.next sampleStore)%nat ->
          Materials.lit (Materials.materials sampleStore j) ->
          Materials.lit (Materials.materials (snd result) j))).
Proof.
  assert (Forall (fun i => (i < Materials.next sampleStore)%nat)
            (Materials.meshRefs sampleTree)) as Hrefs
    by (cbn; repeat (constructor; [lia|]); constructor).
  split; [exact Hrefs|].
  exact (materials_fit_for_lighting 2 sampleTree sampleStore Hrefs).
Defined.

(** X15, witness.  The glowing material, to which the two meshes of
    the sample tree refer, is brightened twice. *)
Lemma shared_materials_brighten_per_use_witness :
  (0 < Materials.next sampleStore)%nat
  /\ Materials.color (Materials.materials sampleStore 0)
     = Some Materials.white
  /\ Materials.type
       (Materials.materials
          (snd (Materials.setupMaterialsForLighting 2 sampleTree sampleStore))
          0)
     <> "MeshBasicMaterial"
  /\ Materials.color
       (Materials.materials
          (snd (Materials.setupMaterialsForLighting 2 sampleTree sampleStore))
          0)
     = Some (Materials.scale Materials.white (2 ^ Materials.uses 0 sampleTree)).
Proof.
  assert (0 < Materials.next sampleStore)%nat as Hlt by (cbn; lia).
  assert (Materials.type (Materials.materials sampleStore 0)
          <> "MeshBasicMaterial") as Ht by (cbn; discriminate).
  split; [exact Hlt|]. split; [reflexivity|].
  exact (shared_materials_brighten_per_use 2 sampleTree sampleStore 0
           Materials.white Hlt Ht eq_refl).
Defined.
